(** * DiffEdit: the workflow facade of [diff_edit/model/diff_edit_model.py]

    A shallow embedding of the [DiffEdit] class.  Its methods are Python
    procedures that read and write files, log, move modules between devices
    and call into collaborators (PIL, torch, the tokenizer and text encoder,
    and the repository's own [ImageProcessor], [MaskGenerator] and
    [Inpainter]).  They are embedded as computations in a state-and-exception
    monad over an explicit [World]; an exception keeps the effects performed
    before it was raised, as in Python. *)

From Stdlib Require Import ZArith String Ascii Bool List.
From Stdlib.Strings Require Import Byte.
From stdpp Require Import base gmap strings list pretty.

Open Scope string_scope.

(** ** Python values shared by the whole model *)

(** The exceptions the facade and its primitives raise. *)
Inductive PyError : Type :=
| ValueError (msg : string)
| AttributeError (msg : string)
| TypeError (msg : string)
| FileNotFoundError (path : string)
| IsADirectoryError (path : string)
| NotADirectoryError (path : string)
| UnidentifiedImageError (path : string)
| OSError (msg : string).

(** The value of a procedure that falls off its end. *)
Inductive NoneType : Type := PyNone.

(** How a call ends: with a value, or with an exception. *)
Inductive Outcome (A : Type) : Type :=
| Return (a : A)
| Raise (e : PyError).
Arguments Return {A} a.
Arguments Raise {A} e.

(** A reference to a Python object (a loaded model, a tokenizer, ...). *)
Definition PyRef : Type := positive.

(** [str(x)] in an f-string, for an optional string. *)
Definition py_str (o : option string) : string :=
  match o with Some s => s | None => "None" end.

(** ** [os.path.join] (posixpath), for one trailing component *)

Definition sep : string := "/".

Definition startswith (s pre : string) : bool := String.prefix pre s.

Fixpoint endswith_sep (s : string) : bool :=
  match s with
  | EmptyString => false
  | String c EmptyString => Ascii.eqb c "/"
  | String _ rest => endswith_sep rest
  end.

Definition is_empty (s : string) : bool :=
  match s with EmptyString => true | _ => false end.

Definition join (a b : string) : string :=
  if startswith b sep then b
  else if is_empty a || endswith_sep a then a +:+ b
  else a +:+ sep +:+ b.

(** ** [os.path.dirname] (posixpath) *)

(** [p[:p.rfind("/") + 1]]: everything up to and including the last
    separator, nothing when there is none. *)
Fixpoint head_of_path (p : string) : string :=
  match p with
  | EmptyString => EmptyString
  | String c rest =>
      match head_of_path rest with
      | EmptyString => if Ascii.eqb c "/" then String c EmptyString else EmptyString
      | h => String c h
      end
  end.

(** [s == "/" * len(s)]. *)
Fixpoint all_sep (s : string) : bool :=
  match s with
  | EmptyString => true
  | String c rest => Ascii.eqb c "/" && all_sep rest
  end.

(** [s.rstrip("/")]. *)
Fixpoint rstrip_sep (s : string) : string :=
  match s with
  | EmptyString => EmptyString
  | String c rest =>
      match rstrip_sep rest with
      | EmptyString => if Ascii.eqb c "/" then EmptyString else String c EmptyString
      | r => String c r
      end
  end.

Definition dirname (p : string) : string :=
  let head := head_of_path p in
  if negb (is_empty head) && negb (all_sep head) then rstrip_sep head else head.

(** ** PIL images *)

(** An image as PIL holds it: a mode, a size (width, height) and the pixel
    buffer that [tobytes()] returns. *)
Record Image : Type := mkImage {
  im_mode : string;
  im_size : nat * nat;
  im_bytes : list byte
}.

(** ** The helper objects built by [DiffEdit.__init__]

    Modelled from the spec: the constructors of [ImageProcessor],
    [MaskGenerator] and [Inpainter] (image_processing.py, mask_generation.py
    and mask_inpainting.py are not among the sources).  The spec describes the
    three as thin call-throughs to the pretrained models; constructing one
    stores the collaborators it is given. *)
Record ImageProcessor : Type := mkImageProcessor {
  ip_vae : option PyRef;
  ip_device : option string
}.

Record MaskGenerator : Type := mkMaskGenerator {
  mg_unet : option PyRef;
  mg_scheduler : option PyRef;
  mg_tokenizer : option PyRef;
  mg_text_encoder : option PyRef;
  mg_image_processor : ImageProcessor;
  mg_device : option string
}.

Record Inpainter : Type := mkInpainter {
  inp_pipeline : option PyRef;
  inp_device : option string
}.

(** The attributes of a [DiffEdit] object.  Every component is
    [Union[..., None]] in the source; the three helpers are [None] until
    [__init__] has assigned them. *)
Record DiffEdit : Type := mkDiffEdit {
  tokenizer : option PyRef;
  text_encoder : option PyRef;
  vae : option PyRef;
  unet : option PyRef;
  inpainting : option PyRef;
  scheduler : option PyRef;
  torch_device : option string;
  image_processor : option ImageProcessor;
  mask_generator : option MaskGenerator;
  inpainter : option Inpainter
}.

(** Padding strategies of the tokenizer's [__call__]. *)
Inductive PaddingStrategy : Type := DoNotPad | PadMaxLength.

(** ** Collaborators

    What the facade consumes as opaque services: the constants of
    [diff_edit.model.constants], PIL's codec and resampler, the numeric
    kernels behind the three helpers, the tokenizer and the text encoder.
    Numeric payloads (latents, noise predictions, hidden states) and the
    state of torch's random number generator are abstract: the facade only
    passes them along. *)
Class Backend : Type := {
  Scalar : Type;
  Tensor : Type;
  Generator : Type;
  (* diff_edit.model.constants *)
  VAE_CONST : Scalar;
  TORCH_SEED : Z;
  IMG_RESIZE_DIM : nat;
  (* PIL *)
  image_decode : list byte -> option Image;
  bmp_encode : Image -> option (list byte);
  resample : Image -> nat * nat -> list byte;
  (* ImageProcessor *)
  img2latent : ImageProcessor -> Image -> Scalar -> Tensor;
  get_blended_mask : ImageProcessor -> Image -> Image -> Image;
  (* MaskGenerator: the kernels of the masking algorithm *)
  prompt_embedding : MaskGenerator -> string -> Tensor;
  seed_for_iteration : Z -> nat -> Z;
  add_noise : Tensor -> Tensor -> Tensor;
  reverse_diffusion : MaskGenerator -> Tensor -> Tensor -> list Tensor;
  mean_abs_difference : list Tensor -> list Tensor -> Tensor;
  tensor_zero : Tensor;
  tensor_add : Tensor -> Tensor -> Tensor;
  normalize : Tensor -> Tensor;
  threshold : Tensor -> Image;
  smooth : Image -> Image;
  (* Inpainter *)
  inpaint_mask : Inpainter -> Image -> Image -> string -> Z -> Image;
  (* CLIPTokenizer and CLIPTextModel *)
  model_max_length : PyRef -> nat;
  pad_token_id : PyRef -> Z;
  tokenizer_encode : PyRef -> string -> list Z;
  hidden_state : PyRef -> list Z -> nat -> Tensor;
  (* torch's random number generator *)
  manual_seed : Z -> Generator;
  randn : Generator -> Tensor * Generator
}.

Section Model.
Context `{Backend}.

(** ** The world the facade runs in *)

(** What the program does besides touching files: log records and calls
    into the collaborators, in the order they happen. *)
Inductive Event : Type :=
| LogDebug (msg : string)
| LogInfo (msg : string)
| CallImg2Latent (ip : ImageProcessor) (im : Image) (scale : Scalar)
| CallCalcDiffeditMask (mg : MaskGenerator) (latent : Tensor)
    (p1 p2 : string) (n seed : Z)
| CallGetBlendedMask (ip : ImageProcessor) (im mask : Image)
| CallInpaintMask (inp : Inpainter) (im mask : Image) (p2 : string) (seed : Z)
| CallTextEncoder (te : PyRef) (input_ids : list Z) (device : option string)
    (grad : bool).

(** A path is its string: regular files with their bytes, and the paths that
    are directories.  Two spellings of one file (["mask.bmp"] and
    ["./mask.bmp"], a link, an absolute path) are two files here, and
    permissions are not modelled; a property about an image that is none
    of the artifacts says so, where it can, by what the operation did to the
    file rather than by the spelling of its path.  [devices] is where each module
    currently lives, [grad_enabled] is torch's autograd switch,
    [processed_mask] and [rough_mask] are the attributes of the session's mask
    generator, [rng] is the state of torch's global random number
    generator. *)
Record World : Type := mkWorld {
  files : gmap string (list byte);
  dirs : gset string;
  devices : gmap PyRef string;
  grad_enabled : bool;
  processed_mask : option Image;
  rough_mask : option Image;
  journal : list Event;
  rng : Generator
}.

Definition with_files (f : gmap string (list byte)) (w : World) : World :=
  mkWorld f (dirs w) (devices w) (grad_enabled w) (processed_mask w)
    (rough_mask w) (journal w) (rng w).

Definition with_devices (d : gmap PyRef string) (w : World) : World :=
  mkWorld (files w) (dirs w) d (grad_enabled w) (processed_mask w)
    (rough_mask w) (journal w) (rng w).

Definition with_grad_enabled (g : bool) (w : World) : World :=
  mkWorld (files w) (dirs w) (devices w) g (processed_mask w)
    (rough_mask w) (journal w) (rng w).

Definition with_processed_mask (m : option Image) (w : World) : World :=
  mkWorld (files w) (dirs w) (devices w) (grad_enabled w) m
    (rough_mask w) (journal w) (rng w).

Definition with_rough_mask (m : option Image) (w : World) : World :=
  mkWorld (files w) (dirs w) (devices w) (grad_enabled w) (processed_mask w)
    m (journal w) (rng w).

Definition with_journal (j : list Event) (w : World) : World :=
  mkWorld (files w) (dirs w) (devices w) (grad_enabled w) (processed_mask w)
    (rough_mask w) j (rng w).

Definition with_rng (g : Generator) (w : World) : World :=
  mkWorld (files w) (dirs w) (devices w) (grad_enabled w) (processed_mask w)
    (rough_mask w) (journal w) g.

(** ** The monad: state, and exceptions that keep the state *)

Definition M (A : Type) : Type := World -> Outcome A * World.

Definition ret {A : Type} (a : A) : M A := fun w => (Return a, w).

Definition raise {A : Type} (e : PyError) : M A := fun w => (Raise e, w).

Definition bind {A B : Type} (c : M A) (k : A -> M B) : M B :=
  fun w =>
    match c w with
    | (Return a, w') => k a w'
    | (Raise e, w') => (Raise e, w')
    end.

Notation "x <- c1 ;; c2" := (bind c1 (fun x => c2))
  (at level 100, c1 at next level, right associativity).
Notation "c1 ;; c2" := (bind c1 (fun _ => c2))
  (at level 100, right associativity).

Definition modify (f : World -> World) : M NoneType :=
  fun w => (Return PyNone, f w).

Definition record (e : Event) : M NoneType :=
  modify (fun w => with_journal (journal w ++ [e]) w).

(** [logging.debug] and [logging.info]. *)
Definition logging_debug (msg : string) : M NoneType := record (LogDebug msg).
Definition logging_info (msg : string) : M NoneType := record (LogInfo msg).

(** Reading [obj.attr ...] where [obj] may be [None]. *)
Definition attr {A : Type} (o : option A) (msg : string) : M A :=
  match o with
  | Some a => ret a
  | None => raise (AttributeError msg)
  end.

(** Calling [obj(...)] where [obj] may be [None]. *)
Definition callable {A : Type} (o : option A) : M A :=
  match o with
  | Some a => ret a
  | None => raise (TypeError "'NoneType' object is not callable")
  end.

(** ** Files *)

(** [os.path.exists]: true of files and of directories. *)
Definition path_exists (w : World) (p : string) : bool :=
  bool_decide (is_Some (files w !! p)) || bool_decide (p ∈ dirs w).

Definition os_path_exists (p : string) : M bool :=
  fun w => (Return (path_exists w p), w).

(** [open(p, "rb").read()]. *)
Definition read_file (p : string) : M (list byte) :=
  fun w =>
    if bool_decide (p ∈ dirs w) then (Raise (IsADirectoryError p), w)
    else match files w !! p with
         | Some bs => (Return bs, w)
         | None => (Raise (FileNotFoundError p), w)
         end.

(** What stands in the way of creating [p]: its parent must be the current
    directory or an existing directory. *)
Definition parent_error (w : World) (p : string) : option PyError :=
  let parent := dirname p in
  if is_empty parent || bool_decide (parent ∈ dirs w) then None
  else if bool_decide (is_Some (files w !! parent))
       then Some (NotADirectoryError p)
       else Some (FileNotFoundError p).

(** [open(p, "wb")]: creates the file or truncates it, in a directory that
    exists; the handle is the path. *)
Definition open_wb (p : string) : M string :=
  fun w =>
    match parent_error w p with
    | Some e => (Raise e, w)
    | None =>
        if bool_decide (p ∈ dirs w) then (Raise (IsADirectoryError p), w)
        else (Return p, with_files (<[p := []]> (files w)) w)
    end.

Definition write_file (f : string) (bs : list byte) : M NoneType :=
  modify (fun w => with_files (<[f := bs]> (files w)) w).

(** ** PIL *)

(** [Image.open(p)] followed by the load that the first use triggers. *)
Definition Image_open (p : string) : M Image :=
  bs <- read_file p ;;
  match image_decode bs with
  | Some im => ret im
  | None => raise (UnidentifiedImageError p)
  end.

(** [im.resize(size)]: same mode, the requested size, resampled pixels. *)
Definition resize (im : Image) (size : nat * nat) : Image :=
  mkImage (im_mode im) size (resample im size).

(** [im.save(f)] on a handle whose name ends in [.bmp]. *)
Definition Image_save (im : Image) (f : string) : M NoneType :=
  match bmp_encode im with
  | Some bs => write_file f bs
  | None => raise (OSError ("cannot write mode " +:+ im_mode im +:+ " as BMP"))
  end.

(** ** torch *)

(** [module.to(device)]: moves the module in place and returns it.  The
    device is taken to be one that torch knows and can reach: a string that
    names no device, on which torch raises, is not modelled. *)
Definition nn_to (m : PyRef) (device : option string) : M PyRef :=
  match device with
  | Some d => modify (fun w => with_devices (<[m := d]> (devices w)) w) ;; ret m
  | None => ret m
  end.

(** [torch.manual_seed(s)]: reseeds the global generator. *)
Definition torch_manual_seed (s : Z) : M NoneType :=
  modify (with_rng (manual_seed s)).

(** [torch.randn(...)]: one draw from the global generator, which moves
    on. *)
Definition torch_randn : M Tensor :=
  fun w => let '(t, g) := randn (rng w) in (Return t, with_rng g w).

(** The statement at module level, run when the module is imported:
    [torch.manual_seed(TORCH_SEED)]. *)
Definition module_import : M NoneType := torch_manual_seed TORCH_SEED.

(** [with torch.no_grad(): body]: autograd off inside, restored on the way
    out, also when [body] raises. *)
Definition no_grad {A : Type} (body : M A) : M A :=
  fun w =>
    let prev := grad_enabled w in
    let '(r, w') := body (with_grad_enabled false w) in
    (r, with_grad_enabled prev w').

(** ** Tokenizer and text encoder *)

(** [tokenizer([text], padding=..., max_length=..., truncation=...)]:
    the ids of the one text, cut to [max_length] when truncating and filled
    with the pad id up to [max_length] when padding to it. *)
Definition tokenizer_call (tk : PyRef) (text : string)
    (padding : PaddingStrategy) (max_length : nat) (truncation : bool)
    : list Z :=
  let ids := tokenizer_encode tk text in
  let ids := if truncation then take max_length ids else ids in
  match padding with
  | PadMaxLength => ids ++ replicate (max_length - length ids) (pad_token_id tk)
  | DoNotPad => ids
  end.

(** [text_encoder(input_ids)[0]]: the last hidden state of a batch of one,
    one vector per input position. *)
Definition text_encoder_call (te : PyRef) (input_ids : list Z)
    (device : option string) : M (list (list Tensor)) :=
  fun w =>
    (Return [map (hidden_state te input_ids) (seq 0 (length input_ids))],
     with_journal
       (journal w ++ [CallTextEncoder te input_ids device (grad_enabled w)]) w).

(** ** ImageProcessor, MaskGenerator, Inpainter: the calls the facade makes *)

(** Modelled from the spec: [ImageProcessor.img2latent],
    [ImageProcessor.get_blended_mask] and [Inpainter.inpaint_mask]
    (image_processing.py and mask_inpainting.py are not among the sources).
    Sections 4.1 and 4.4 give them as deterministic functions of their
    arguments that do not mutate their inputs; each call is entered in the
    journal and answers with the backend's kernel. *)
Definition ImageProcessor_img2latent (ip : ImageProcessor) (im : Image)
    (scale : Scalar) : M Tensor :=
  record (CallImg2Latent ip im scale) ;;
  ret (img2latent ip im scale).

Definition ImageProcessor_get_blended_mask (ip : ImageProcessor)
    (im mask : Image) : M Image :=
  record (CallGetBlendedMask ip im mask) ;;
  ret (get_blended_mask ip im mask).

Definition Inpainter_inpaint_mask (inp : Inpainter) (im mask : Image)
    (p2 : string) (seed : Z) : M Image :=
  record (CallInpaintMask inp im mask p2 seed) ;;
  ret (inpaint_mask inp im mask p2 seed).

(** Modelled from the spec: how the mask generator derives the noise of
    iteration [i] from the seed (mask_generation.py is not among the
    sources).  Section 4.3, step 1, and the design note on the process-wide
    seed: the global generator is reseeded from the seed combined with the
    iteration index, and the noise is the next draw. *)
Definition draw_noise (seed : Z) (i : nat) : M Tensor :=
  torch_manual_seed (seed_for_iteration seed i) ;;
  torch_randn.

(** The noise that [draw_noise] comes back with, as a function. *)
Definition noise_sample (seed : Z) (i : nat) : Tensor :=
  fst (randn (manual_seed (seed_for_iteration seed i))).

(** Modelled from the spec: steps 2 to 4 of section 4.3 for one noise
    sample: one reverse-diffusion trajectory on the noised latent under each
    prompt's embedding, with the same noise, and the absolute difference of
    the two noise-prediction sequences averaged over the steps. *)
Definition divergence_under_noise (mg : MaskGenerator) (latent : Tensor)
    (p1 p2 : string) (noise : Tensor) : Tensor :=
  let noised := add_noise latent noise in
  let predictions_remove := reverse_diffusion mg noised (prompt_embedding mg p1) in
  let predictions_add := reverse_diffusion mg noised (prompt_embedding mg p2) in
  mean_abs_difference predictions_remove predictions_add.

(** Modelled from the spec: the loop of section 4.3 over the iterations,
    with the running sum of step 5. *)
Fixpoint accumulate_divergence (mg : MaskGenerator) (latent : Tensor)
    (p1 p2 : string) (seed : Z) (iterations : list nat) (acc : Tensor)
    : M Tensor :=
  match iterations with
  | [] => ret acc
  | i :: rest =>
      noise <- draw_noise seed i ;;
      accumulate_divergence mg latent p1 p2 seed rest
        (tensor_add acc (divergence_under_noise mg latent p1 p2 noise))
  end.

(** Modelled from the spec: [MaskGenerator.calc_diffedit_mask]
    (mask_generation.py is not among the sources).  After iterations 1..n
    the accumulated map is normalised and thresholded into the rough mask,
    which is smoothed into the processed mask; both are kept on the
    generator, where [get_mask] reads them, and the processed mask is
    returned. *)
Definition calc_diffedit_mask (mg : MaskGenerator) (latent : Tensor)
    (p1 p2 : string) (n : Z) (seed : Z) : M Image :=
  record (CallCalcDiffeditMask mg latent p1 p2 n seed) ;;
  total <- accumulate_divergence mg latent p1 p2 seed (seq 1 (Z.to_nat n))
             tensor_zero ;;
  let rough := threshold (normalize total) in
  let processed := smooth rough in
  modify (with_rough_mask (Some rough)) ;;
  modify (with_processed_mask (Some processed)) ;;
  ret processed.

(** The divergence map of iteration [i], as a function of the inputs. *)
Definition iteration_divergence (mg : MaskGenerator) (latent : Tensor)
    (p1 p2 : string) (seed : Z) (i : nat) : Tensor :=
  divergence_under_noise mg latent p1 p2 (noise_sample seed i).

(** The sum of the divergence maps of iterations 1..n, as a function of the
    inputs. *)
Definition accumulated_divergence (mg : MaskGenerator) (latent : Tensor)
    (p1 p2 : string) (n : Z) (seed : Z) : Tensor :=
  fold_left
    (fun acc i => tensor_add acc (iteration_divergence mg latent p1 p2 seed i))
    (seq 1 (Z.to_nat n)) tensor_zero.

(** ** The methods of [DiffEdit] *)

Definition with_vae (v : PyRef) (self : DiffEdit) : DiffEdit :=
  mkDiffEdit (tokenizer self) (text_encoder self) (Some v) (unet self)
    (inpainting self) (scheduler self) (torch_device self)
    (image_processor self) (mask_generator self) (inpainter self).

Definition with_text_encoder (v : PyRef) (self : DiffEdit) : DiffEdit :=
  mkDiffEdit (tokenizer self) (Some v) (vae self) (unet self)
    (inpainting self) (scheduler self) (torch_device self)
    (image_processor self) (mask_generator self) (inpainter self).

Definition with_unet (v : PyRef) (self : DiffEdit) : DiffEdit :=
  mkDiffEdit (tokenizer self) (text_encoder self) (vae self) (Some v)
    (inpainting self) (scheduler self) (torch_device self)
    (image_processor self) (mask_generator self) (inpainter self).

Definition with_inpainting (v : PyRef) (self : DiffEdit) : DiffEdit :=
  mkDiffEdit (tokenizer self) (text_encoder self) (vae self) (unet self)
    (Some v) (scheduler self) (torch_device self)
    (image_processor self) (mask_generator self) (inpainter self).

Definition with_helpers (ip : ImageProcessor) (mg : MaskGenerator)
    (inp : Inpainter) (self : DiffEdit) : DiffEdit :=
  mkDiffEdit (tokenizer self) (text_encoder self) (vae self) (unet self)
    (inpainting self) (scheduler self) (torch_device self)
    (Some ip) (Some mg) (Some inp).

Definition no_attribute (class name : string) : string :=
  "'" +:+ class +:+ "' object has no attribute '" +:+ name +:+ "'".

(** [component.to(device)] where [component] may be [None]. *)
Definition component_to (c : option PyRef) (device : option string) : M PyRef :=
  m <- attr c (no_attribute "NoneType" "to") ;;
  nn_to m device.

Definition to (self : DiffEdit) (device : option string) : M DiffEdit :=
  v <- component_to (vae self) device ;;
  let self := with_vae v self in
  t <- component_to (text_encoder self) device ;;
  let self := with_text_encoder t self in
  u <- component_to (unet self) device ;;
  let self := with_unet u self in
  i <- component_to (inpainting self) device ;;
  let self := with_inpainting i self in
  ret self.

Definition __init__ (tokenizer text_encoder vae unet inpainting
    scheduler : option PyRef) (torch_device : option string) : M DiffEdit :=
  let self := mkDiffEdit tokenizer text_encoder vae unet inpainting scheduler
                torch_device None None None in
  logging_debug ("Setting the device to " +:+ py_str torch_device) ;;
  self <- to self torch_device ;;
  logging_debug ("Device set to " +:+ py_str torch_device) ;;
  let ip := mkImageProcessor vae torch_device in
  let mg := mkMaskGenerator unet scheduler tokenizer text_encoder ip
              torch_device in
  let inp := mkInpainter inpainting torch_device in
  ret (with_helpers ip mg inp self).

Definition working_size : nat * nat := (IMG_RESIZE_DIM, IMG_RESIZE_DIM).

Definition get_mask (self : DiffEdit) (im_path p1 p2 : string) (seed n : Z)
    : M (Image * Image * Image) :=
  im <- Image_open im_path ;;
  let im := resize im working_size in
  ip <- attr (image_processor self) (no_attribute "DiffEdit" "image_processor") ;;
  im_latent <- ImageProcessor_img2latent ip im VAE_CONST ;;
  mg <- attr (mask_generator self) (no_attribute "DiffEdit" "mask_generator") ;;
  mask <- calc_diffedit_mask mg im_latent p1 p2 n seed ;;
  processed <- (fun w => attr (processed_mask w)
                          (no_attribute "MaskGenerator" "processed_mask") w) ;;
  rough <- (fun w => attr (rough_mask w)
                      (no_attribute "MaskGenerator" "rough_mask") w) ;;
  blended <- ImageProcessor_get_blended_mask ip im mask ;;
  ret (processed, rough, blended).

Definition refine_mask {K : Type} (self : DiffEdit) (mask : Image) (n : Z)
    (kwargs : K) : M NoneType :=
  ret PyNone.

Definition image_path_missing (im_path : string) : string :=
  "Image path " +:+ im_path +:+ " does not exist. Check the provided path".

Definition obtaining_the_mask (n : Z) : string :=
  "Obtaining the mask by running the diffusion process " +:+ pretty n
    +:+ " times.".

Definition create_mask (self : DiffEdit) (im_path p1 p2 : string) (n seed : Z)
    : M (Image * Image * Image) :=
  found <- os_path_exists im_path ;;
  if negb found then raise (ValueError (image_path_missing im_path))
  else
    logging_info (obtaining_the_mask n) ;;
    masks <- get_mask self im_path p1 p2 seed n ;;
    let '(mask, rough_mask, blended_mask) := masks in
    ret (mask, rough_mask, blended_mask).

Definition save_mask (self : DiffEdit) (mask rough_mask blended_mask : Image)
    (im_path workdir : string) : M NoneType :=
  f <- open_wb (join workdir "mask.bmp") ;;
  Image_save mask f ;;
  f <- open_wb (join workdir "rough_mask.bmp") ;;
  Image_save rough_mask f ;;
  f <- open_wb (join workdir "blended_mask.bmp") ;;
  Image_save blended_mask f ;;
  f <- open_wb (join workdir "original_image.bmp") ;;
  im <- Image_open im_path ;;
  Image_save (resize im working_size) f.

Definition save_inpainted_image (self : DiffEdit) (inpainted_image : Image)
    (workdir : string) : M NoneType :=
  f <- open_wb (join workdir "inpainted_image.bmp") ;;
  Image_save inpainted_image f.

Definition mask_files_missing (workdir : string) : string :=
  "Mask files not found in " +:+ workdir
    +:+ ". Run create_mask to generate the mask.".

Definition load_mask (self : DiffEdit) (workdir : string)
    : M (Image * Image * Image) :=
  let mask_path := join workdir "mask.bmp" in
  let rough_mask_path := join workdir "rough_mask.bmp" in
  let blended_mask_path := join workdir "blended_mask.bmp" in
  e1 <- os_path_exists mask_path ;;
  e2 <- os_path_exists rough_mask_path ;;
  e3 <- os_path_exists blended_mask_path ;;
  if negb (forallb id [e1; e2; e3])
  then raise (ValueError (mask_files_missing workdir))
  else
    mask <- Image_open mask_path ;;
    rough_mask <- Image_open rough_mask_path ;;
    blended_mask <- Image_open blended_mask_path ;;
    ret (mask, rough_mask, blended_mask).

Definition inpaint_mask_with_prompt (self : DiffEdit) (im_path : string)
    (mask : Image) (p2 : string) (seed : Z) : M Image :=
  found <- os_path_exists im_path ;;
  if negb found then raise (ValueError (image_path_missing im_path))
  else
    im <- Image_open im_path ;;
    let im := resize im working_size in
    logging_info "Inpainting the image using the mask." ;;
    inp <- attr (inpainter self) (no_attribute "DiffEdit" "inpainter") ;;
    inpainted_image <- Inpainter_inpaint_mask inp im mask p2 seed ;;
    ret inpainted_image.

Definition demo_diffedit (self : DiffEdit) (im_path p1 p2 : string) (n seed : Z)
    : M (list Image) :=
  found <- os_path_exists im_path ;;
  if negb found then raise (ValueError (image_path_missing im_path))
  else
    let out : list Image := [] in
    im <- Image_open im_path ;;
    let im := resize im working_size in
    let out := (out ++ [im])%list in
    logging_info (obtaining_the_mask n) ;;
    masks <- create_mask self im_path p1 p2 n seed ;;
    let '(mask, rough_mask, blended_mask) := masks in
    save_mask self mask rough_mask blended_mask im_path "./" ;;
    let out := (out ++ [blended_mask])%list in
    masks <- load_mask self "./" ;;
    let '(mask, rough_mask, blended_mask) := masks in
    logging_info "Inpainting the image using the mask." ;;
    inpainted_image <- inpaint_mask_with_prompt self im_path mask p2 seed ;;
    save_inpainted_image self inpainted_image "./" ;;
    let out := (out ++ [inpainted_image])%list in
    ret out.

Definition _get_embedding_for_prompt (self : DiffEdit) (prompt : string)
    : M (list (list Tensor)) :=
  tk <- attr (tokenizer self) (no_attribute "NoneType" "model_max_length") ;;
  let max_length := model_max_length tk in
  let input_ids := tokenizer_call tk prompt PadMaxLength max_length true in
  no_grad (
    te <- callable (text_encoder self) ;;
    text_encoder_call te input_ids (torch_device self)).

End Model.

(** ** Vocabulary of the properties *)

Section Vocabulary.
Context `{Backend}.

(** What [join] puts in front of a relative component. *)
Definition workdir_prefix (workdir : string) : string :=
  if is_empty workdir || endswith_sep workdir then workdir
  else workdir +:+ sep.

(** The world after [logging.info(msg)]. *)
Definition logged (msg : string) (w : World) : World :=
  with_journal (journal w ++ [LogInfo msg]) w.

(** The regular file [p] holds bytes that PIL reads as [im]. *)
Definition holds_image (w : World) (p : string) (im : Image) : Prop :=
  (p ∉ dirs w) /\
  exists bs, files w !! p = Some bs /\ image_decode bs = Some im.

(** The file [p] holds the BMP encoding of [im]. *)
Definition stored (w : World) (p : string) (im : Image) : Prop :=
  exists bs, bmp_encode im = Some bs /\ files w !! p = Some bs.

(** What mask generation computes from the image found at the path: the
    processed mask, the rough mask and the blended image. *)
Definition generated_masks (ip : ImageProcessor) (mg : MaskGenerator)
    (im0 : Image) (p1 p2 : string) (n seed : Z) : Image * Image * Image :=
  let im := resize im0 working_size in
  let latent := img2latent ip im VAE_CONST in
  let rough :=
    threshold (normalize (accumulated_divergence mg latent p1 p2 n seed)) in
  let processed := smooth rough in
  (processed, rough, get_blended_mask ip im processed).

(** The generator after the noise of iterations 1..n has been drawn: left
    by the last draw, or as it was when there is no iteration. *)
Definition rng_after (seed n : Z) (g : Generator) : Generator :=
  match last (seq 1 (Z.to_nat n)) with
  | Some i => snd (randn (manual_seed (seed_for_iteration seed i)))
  | None => g
  end.

(** A file can be created or truncated at [p]: the parent is there and [p]
    is not a directory. *)
Definition creatable (w : World) (p : string) : Prop :=
  parent_error w p = None /\ p ∉ dirs w.

(** The BMP codec writes [im] and reads it back as it was. *)
Definition bmp_roundtrips (im : Image) : Prop :=
  exists bs, bmp_encode im = Some bs /\ image_decode bs = Some im.

(** The files [save_mask] is to write into [workdir]. *)
Definition mask_artifacts (workdir : string) : list string :=
  [join workdir "mask.bmp"; join workdir "rough_mask.bmp";
   join workdir "blended_mask.bmp"; join workdir "original_image.bmp"].

(** From [w] to [w'] no directory appeared or vanished and every file
    outside [ps] is what it was (present with the same bytes, or absent). *)
Definition frame (ps : list string) (w w' : World) : Prop :=
  dirs w' = dirs w /\ forall p, p ∉ ps -> files w' !! p = files w !! p.

(** A computation that, however it ends, touches no file outside [ps]. *)
Definition writes_within {A : Type} (ps : list string) (c : M A) : Prop :=
  forall w, frame ps w (snd (c w)).

(** The source image an event hands to a processing stage, if any. *)
Definition source_image (e : Event) : option Image :=
  match e with
  | CallImg2Latent _ im _ => Some im
  | CallGetBlendedMask _ im _ => Some im
  | CallInpaintMask _ im _ _ _ => Some im
  | _ => None
  end.

Definition at_working_size (e : Event) : Prop :=
  match source_image e with
  | Some im => im_size im = working_size
  | None => True
  end.

(** Every source image that has entered a processing stage so far had the
    working resolution. *)
Definition resize_invariant (w : World) : Prop :=
  Forall at_working_size (journal w).

(** The file store once the three mask blocks of [save_mask] have run: each
    file is truncated, then filled with its bytes. *)
Definition masks_written (workdir : string) (bs1 bs2 bs3 : list byte)
    (fs : gmap string (list byte)) : gmap string (list byte) :=
  <[join workdir "blended_mask.bmp" := bs3]>
    (<[join workdir "blended_mask.bmp" := []]>
       (<[join workdir "rough_mask.bmp" := bs2]>
          (<[join workdir "rough_mask.bmp" := []]>
             (<[join workdir "mask.bmp" := bs1]>
                (<[join workdir "mask.bmp" := []]> fs))))).

(** A computation that, however it ends, keeps that invariant. *)
Definition keeps_resize_invariant {A : Type} (c : M A) : Prop :=
  forall w, resize_invariant w -> resize_invariant (snd (c w)).

End Vocabulary.

(** ** A small executable backend

    Stand-ins for the collaborators on which the facade can be run: images
    are single-channel with sides below 256, the codec writes the two sides
    followed by the pixels, and the numeric kernels are integer arithmetic.
    The working resolution is 2 (the repository's constant is not among the
    sources). *)
Module Toy.

Definition byte_of (n : nat) : byte :=
  match Byte.of_nat n with Some b => b | None => x00 end.

Definition encode (im : Image) : option (list byte) :=
  let '(w, h) := im_size im in
  if String.eqb (im_mode im) "L" && (w <? 256)%nat && (h <? 256)%nat
     && (length (im_bytes im) =? w * h)%nat
  then Some (byte_of w :: byte_of h :: im_bytes im)
  else None.

Definition decode (bs : list byte) : option Image :=
  match bs with
  | w :: h :: pixels =>
      if (length pixels =? Byte.to_nat w * Byte.to_nat h)%nat
      then Some (mkImage "L" (Byte.to_nat w, Byte.to_nat h) pixels)
      else None
  | _ => None
  end.

Definition nearest (im : Image) (size : nat * nat) : list byte :=
  replicate (fst size * snd size) (hd x00 (im_bytes im)).

Definition overlay (tint : byte) (im mask : Image) : Image :=
  mkImage (im_mode im) (im_size im)
    (zip_with (fun p m => if Byte.eqb m x00 then p else tint)
       (im_bytes im) (im_bytes mask)).

Definition sum_abs_difference (l1 l2 : list Z) : Z :=
  fold_right Z.add 0%Z (zip_with (fun a b => Z.abs (a - b)) l1 l2).

Definition cut (t : Z) : Image :=
  mkImage "L" (2, 2)
    (if (0 <? t)%Z then [xff; x00; x00; xff] else [x00; x00; x00; x00]).

Definition fill (im : Image) : Image :=
  mkImage (im_mode im) (im_size im)
    (map (fun b => if Byte.eqb b x00 then x00 else xff) (im_bytes im)).

Definition ids_of (s : string) : list Z :=
  map (fun c => Z.of_nat (nat_of_ascii c)) (list_ascii_of_string s).

#[export] Instance backend : Backend := {|
  Scalar := Z;
  Tensor := Z;
  Generator := Z;
  VAE_CONST := 18215%Z;
  TORCH_SEED := 42%Z;
  IMG_RESIZE_DIM := 2;
  image_decode := decode;
  bmp_encode := encode;
  resample := nearest;
  img2latent := fun _ im scale =>
    (scale * Z.of_nat (Byte.to_nat (hd x00 (im_bytes im))))%Z;
  get_blended_mask := fun _ im mask => overlay x80 im mask;
  prompt_embedding := fun _ p => fold_right Z.add 0%Z (ids_of p);
  seed_for_iteration := fun seed i => (seed + Z.of_nat i)%Z;
  add_noise := Z.add;
  reverse_diffusion := fun _ x e => [(x + e)%Z; (x + 2 * e)%Z];
  mean_abs_difference := sum_abs_difference;
  tensor_zero := 0%Z;
  tensor_add := Z.add;
  normalize := fun t => t;
  threshold := cut;
  smooth := fill;
  inpaint_mask := fun _ im mask _ seed => overlay (byte_of (Z.to_nat seed)) im mask;
  model_max_length := fun _ => 4;
  pad_token_id := fun _ => 0%Z;
  tokenizer_encode := fun _ s => ids_of s;
  hidden_state := fun te ids i => (Z.pos te + nth i ids 0)%Z;
  manual_seed := fun s => s;
  randn := fun g => (g, Z.succ g)
|}.

(** A photograph of one pixel side, as the toy codec stores it. *)
Definition photo : Image := mkImage "L" (1, 1) [x07].

Definition photo_bytes : list byte := [x01; x01; x07].

(** A session wired by hand the way [__init__] wires it. *)
Definition processor : ImageProcessor := mkImageProcessor (Some 3%positive) (Some "cpu").

Definition generator : MaskGenerator :=
  mkMaskGenerator (Some 4%positive) (Some 6%positive) (Some 1%positive)
    (Some 2%positive) processor (Some "cpu").

Definition painter : Inpainter := mkInpainter (Some 5%positive) (Some "cpu").

Definition session : DiffEdit :=
  mkDiffEdit (Some 1%positive) (Some 2%positive) (Some 3%positive)
    (Some 4%positive) (Some 5%positive) (Some 6%positive) (Some "cpu")
    (Some processor) (Some generator) (Some painter).

(** A session built with the tokenizer and the scheduler left out. *)
Definition unwired_session : DiffEdit :=
  mkDiffEdit None (Some 2%positive) (Some 3%positive)
    (Some 4%positive) (Some 5%positive) None (Some "cpu")
    (Some processor)
    (Some (mkMaskGenerator (Some 4%positive) None None (Some 2%positive)
             processor (Some "cpu")))
    (Some painter).

(** Nothing but the current directory and an empty directory [out]. *)
Definition empty_world : World :=
  mkWorld ∅ {["."; "out"]} ∅ true None None [] 0%Z.

(** The current directory holds the photograph [dog.bmp] and an empty
    directory [out]. *)
Definition world : World :=
  mkWorld {["dog.bmp" := photo_bytes]} {["."; "out"]} ∅ true None None []
    0%Z.

Definition mask_a : Image := mkImage "L" (2, 2) [xff; x00; x00; xff].
Definition mask_b : Image := mkImage "L" (2, 2) [xff; xff; x00; x00].
Definition mask_c : Image := mkImage "L" (2, 2) [x80; x07; x07; x80].

(** A directory [out] with the three masks and no [original_image.bmp]. *)
Definition masks_only_world : World :=
  mkWorld {[ "out/mask.bmp" := x02 :: x02 :: im_bytes mask_a;
             "out/rough_mask.bmp" := x02 :: x02 :: im_bytes mask_b;
             "out/blended_mask.bmp" := x02 :: x02 :: im_bytes mask_c ]}
    {["."; "out"]} ∅ true None None [] 0%Z.

(** The world after the three masks have been saved next to the
    photograph, into [out]. *)
Definition saved_world : World :=
  snd (save_mask session mask_a mask_b mask_c "dog.bmp" "out" world).

(** What the toy kernels make of the photograph under the prompts
    "dog" and "cat", two iterations and seed 42. *)
Definition resized_photo : Image := mkImage "L" (2, 2) [x07; x07; x07; x07].
Definition dog_mask : Image := mkImage "L" (2, 2) [xff; x00; x00; xff].
Definition dog_blended : Image := mkImage "L" (2, 2) [x80; x07; x07; x80].
Definition dog_inpainted : Image := mkImage "L" (2, 2) [x2a; x07; x07; x2a].

(** The world after the masks have been saved into [out] with the mask file
    itself named as the image. *)
Definition overwritten_world : World :=
  snd (save_mask session mask_a mask_b mask_c "out/mask.bmp" "out" empty_world).

(** [masks_only_world] with one more file in it. *)
Definition noted_world : World :=
  mkWorld (<["out/notes.txt" := [x68; x69]]> (files masks_only_world))
    {["."; "out"]} ∅ false None None [LogInfo "noted"] 7%Z.

(** A directory [out] in which [mask.bmp] is itself a directory. *)
Definition blocked_world : World :=
  mkWorld {[ "out/rough_mask.bmp" := x02 :: x02 :: im_bytes mask_b;
             "out/blended_mask.bmp" := x02 :: x02 :: im_bytes mask_c ]}
    {["."; "out"; "out/mask.bmp"]} ∅ true None None [] 0%Z.

(** The world after the demo has run on the photograph. *)
Definition demo_world : World :=
  snd (demo_diffedit session "dog.bmp" "dog" "cat" 2 42 world).

(** The world after the session has been constructed on the cpu. *)
Definition wired_world : World :=
  snd (__init__ (Some 1%positive) (Some 2%positive) (Some 3%positive)
         (Some 4%positive) (Some 5%positive) (Some 6%positive) (Some "cpu")
         empty_world).


(** A mask of floating-point pixels, which the codec does not write. *)
Definition float_mask : Image := mkImage "F" (2, 2) [xff; x00; x00; xff].

(** The world after a save of [float_mask] into [out] has failed. *)
Definition refused_world : World :=
  snd (save_mask session float_mask mask_b mask_c "dog.bmp" "out" world).

(** The world after a save into [out] has failed for want of [cat.bmp]. *)
Definition unfinished_world : World :=
  snd (save_mask session mask_a mask_b mask_c "cat.bmp" "out" empty_world).

(** The photograph again, in a world that has been in use: another file
    next to it, masks left on the generator object, autograd off, a journal,
    and the global generator somewhere else. *)
Definition used_world : World :=
  mkWorld {["dog.bmp" := photo_bytes; "notes.txt" := [x68; x69]]}
    {["."; "out"]} {[3%positive := "cuda"]} false (Some mask_b) (Some mask_c)
    [LogInfo "noted"] 20241103%Z.

(** A session with no inpainting pipeline. *)
Definition session_without_inpainting : DiffEdit :=
  mkDiffEdit (Some 1%positive) (Some 2%positive) (Some 3%positive)
    (Some 4%positive) None (Some 6%positive) (Some "cpu")
    (Some processor) (Some generator) None.


End Toy.

(** * Properties *)

Section Properties.
Context `{Backend}.

(** ** Running the monad *)

Lemma bind_Return_inv {A B : Type} (c : M A) (k : A -> M B) w b w' :
  bind c k w = (Return b, w') ->
  exists a w1, c w = (Return a, w1) /\ k a w1 = (Return b, w').
Proof.
  unfold bind. destruct (c w) as [[a|e] w1]; intros Hk.
  - exists a, w1. split; [reflexivity | exact Hk].
  - discriminate Hk.
Qed.

Lemma bind_Return {A B : Type} (c : M A) (k : A -> M B) w a w1 :
  c w = (Return a, w1) -> bind c k w = k a w1.
Proof. intros Hc. unfold bind. rewrite Hc. reflexivity. Qed.

(** ** Paths *)

Lemma append_cons (c : ascii) (a b : string) :
  String c a +:+ b = String c (a +:+ b).
Proof. reflexivity. Qed.

Lemma append_assoc (a b c : string) : a +:+ (b +:+ c) = (a +:+ b) +:+ c.
Proof.
  induction a as [|x rest IH]; [reflexivity |].
  rewrite !append_cons, IH. reflexivity.
Qed.

Lemma join_relative workdir name :
  startswith name sep = false -> join workdir name = workdir_prefix workdir +:+ name.
Proof.
  intros Hrel. unfold join, workdir_prefix. rewrite Hrel.
  destruct (is_empty workdir || endswith_sep workdir); [reflexivity |].
  apply append_assoc.
Qed.

Lemma append_cancel_l (pre a b : string) : pre +:+ a = pre +:+ b -> a = b.
Proof.
  induction pre as [|c rest IH]; intros Heq; [exact Heq |].
  rewrite !append_cons in Heq. injection Heq as Heq. exact (IH Heq).
Qed.

Lemma join_relative_ne workdir a b :
  startswith a sep = false -> startswith b sep = false -> a <> b ->
  join workdir a <> join workdir b.
Proof.
  intros Ha Hb Hne Heq. rewrite (join_relative _ _ Ha), (join_relative _ _ Hb) in Heq.
  exact (Hne (append_cancel_l _ _ _ Heq)).
Qed.

(** Two different artifact names never meet in one working directory. *)
Ltac artifact_ne :=
  first [ apply join_relative_ne; [reflexivity | reflexivity | discriminate]
        | apply not_eq_sym, join_relative_ne; [reflexivity | reflexivity | discriminate] ].

(** ** C6: the refinement stub *)

(** C6. [refine_mask] is an unimplemented stub: for every mask, iteration
    count and keyword arguments it returns [None] and leaves the world
    (files, devices, generator attributes, journal) exactly as it was. *)
Theorem refine_mask_is_a_stub {K : Type} (self : DiffEdit) (mask : Image)
    (n : Z) (kwargs : K) (w : World) :
  refine_mask self mask n kwargs w = (Return PyNone, w).
Proof. reflexivity. Qed.

(** ** C2: a missing image path *)

(** C2. When [im_path] does not exist, [create_mask] raises the
    [ValueError] naming the path and the world is unchanged: no file is
    written, nothing is logged and no collaborator is called. *)
Theorem create_mask_missing_path (self : DiffEdit) (im_path p1 p2 : string)
    (n seed : Z) (w : World) :
  path_exists w im_path = false ->
  create_mask self im_path p1 p2 n seed w
  = (Raise (ValueError (image_path_missing im_path)), w).
Proof.
  intros Hmissing. unfold create_mask, bind, os_path_exists.
  rewrite Hmissing. reflexivity.
Qed.

(** ** C9: prompt embeddings *)

Lemma tokenizer_call_length (tk : PyRef) (text : string) (max_length : nat) :
  length (tokenizer_call tk text PadMaxLength max_length true) = max_length.
Proof.
  unfold tokenizer_call. rewrite length_app, length_take, length_replicate. lia.
Qed.

Lemma no_grad_text_encoder (te : PyRef) (ids : list Z) (device : option string)
    (w : World) :
  no_grad (text_encoder_call te ids device) w
  = (Return [map (hidden_state te ids) (seq 0 (length ids))],
     with_journal (journal w ++ [CallTextEncoder te ids device false]) w).
Proof. destruct w; reflexivity. Qed.

(** C9. With a tokenizer and a text encoder in place, every prompt is
    turned into exactly [model_max_length] token ids (longer inputs cut,
    shorter ones padded), the embedding returned is a batch of one with one
    vector per id, the encoder runs with autograd switched off, and the only
    trace left in the world is that call: autograd is back to its former
    setting and nothing else has changed. *)
Theorem embedding_has_fixed_shape (self : DiffEdit) (tk te : PyRef)
    (prompt : string) (w : World) :
  tokenizer self = Some tk ->
  text_encoder self = Some te ->
  exists (input_ids : list Z) (row : list Tensor),
    input_ids = tokenizer_call tk prompt PadMaxLength (model_max_length tk) true
    /\ length input_ids = model_max_length tk
    /\ length row = model_max_length tk
    /\ _get_embedding_for_prompt self prompt w
       = (Return [row],
          with_journal
            (journal w ++ [CallTextEncoder te input_ids (torch_device self) false])
            w).
Proof.
  intros Htk Hte.
  set (ids := tokenizer_call tk prompt PadMaxLength (model_max_length tk) true).
  exists ids, (map (hidden_state te ids) (seq 0 (length ids))).
  assert (Hlen : length ids = model_max_length tk)
    by apply tokenizer_call_length.
  repeat split; [exact Hlen | now rewrite length_map, length_seq |].
  unfold _get_embedding_for_prompt. rewrite Htk, Hte.
  change (bind (attr (Some tk) _) _ w)
    with (no_grad (text_encoder_call te ids (torch_device self)) w).
  apply no_grad_text_encoder.
Qed.

(** ** C10: construction and the [None] defaults *)

Lemma to_raises_without_component (self : DiffEdit) (device : option string)
    (w : World) :
  vae self = None \/ text_encoder self = None \/ unet self = None
  \/ inpainting self = None ->
  fst (to self device w) = Raise (AttributeError (no_attribute "NoneType" "to")).
Proof.
  destruct self as [tok te v u i sch dev ip mg inp]; simpl.
  intros Hnone.
  destruct v as [v|], te as [te|], u as [u|], i as [i|], device as [d|];
    try reflexivity;
    destruct Hnone as [Hn | [Hn | [Hn | Hn]]]; discriminate Hn.
Qed.

Lemma to_returns_with_components (self : DiffEdit) (device : option string)
    (w : World) (v t u i : PyRef) :
  vae self = Some v -> text_encoder self = Some t -> unet self = Some u ->
  inpainting self = Some i ->
  fst (to self device w) = Return self.
Proof.
  destruct self as [tok te v' u' i' sch dev ip mg inp]; simpl.
  intros -> -> -> ->. destruct device as [d|]; reflexivity.
Qed.

(** C10, as the code has it.  If the vae, the text encoder, the unet or
    the inpainting pipeline is [None], construction raises the
    [AttributeError] of [None.to] from inside [to(device)]; when these four
    are present [to(device)] returns and construction yields an object,
    whatever the tokenizer, the scheduler and the device are: [None] there
    is kept in the object as it is. *)
Theorem init_requires_the_moved_components
    (tok te v u i sch : option PyRef) (dev : option string) (w : World) :
  (v = None \/ te = None \/ u = None \/ i = None ->
   fst (__init__ tok te v u i sch dev w)
   = Raise (AttributeError (no_attribute "NoneType" "to")))
  /\ (is_Some v -> is_Some te -> is_Some u -> is_Some i ->
      exists self,
        fst (__init__ tok te v u i sch dev w) = Return self
        /\ tokenizer self = tok /\ scheduler self = sch
        /\ torch_device self = dev).
Proof.
  split.
  - intros Hnone.
    destruct v as [v|], te as [te|], u as [u|], i as [i|], dev as [d|];
      try reflexivity;
      destruct Hnone as [Hn | [Hn | [Hn | Hn]]]; discriminate Hn.
  - intros [v' ->] [te' ->] [u' ->] [i' ->].
    destruct dev as [d|]; eexists; (split; [reflexivity |]); repeat split.
Qed.

(** ** Reading images back *)

Lemma Image_open_holds (w : World) (p : string) (im : Image) :
  holds_image w p im -> Image_open p w = (Return im, w).
Proof.
  intros [Hfile (bs & Hbs & Hdec)]. unfold Image_open, bind, read_file.
  rewrite bool_decide_eq_false_2 by exact Hfile. rewrite Hbs, Hdec. reflexivity.
Qed.

Lemma holds_image_exists (w : World) (p : string) (im : Image) :
  holds_image w p im -> path_exists w p = true.
Proof.
  intros [_ (bs & Hbs & _)]. unfold path_exists.
  rewrite bool_decide_eq_true_2 by (rewrite Hbs; eauto). reflexivity.
Qed.

Lemma Image_open_world (w w' : World) (p : string) (o : Outcome Image) :
  Image_open p w = (o, w') -> w' = w.
Proof.
  unfold Image_open, bind, read_file.
  destruct (bool_decide (p ∈ dirs w)); [intros [= _ <-]; reflexivity |].
  destruct (files w !! p) as [bs|]; [| intros [= _ <-]; reflexivity].
  destruct (image_decode bs); intros [= _ <-]; reflexivity.
Qed.

Lemma load_mask_missing (self : DiffEdit) (workdir : string) (w : World) :
  path_exists w (join workdir "mask.bmp") = false
  \/ path_exists w (join workdir "rough_mask.bmp") = false
  \/ path_exists w (join workdir "blended_mask.bmp") = false ->
  load_mask self workdir w = (Raise (ValueError (mask_files_missing workdir)), w).
Proof.
  intros Hmissing. unfold load_mask, bind, os_path_exists. simpl.
  destruct Hmissing as [-> | [-> | ->]]; rewrite ?andb_false_r; reflexivity.
Qed.

Lemma load_mask_complete (self : DiffEdit) (workdir : string) (w : World)
    (mask rough blended : Image) :
  holds_image w (join workdir "mask.bmp") mask ->
  holds_image w (join workdir "rough_mask.bmp") rough ->
  holds_image w (join workdir "blended_mask.bmp") blended ->
  load_mask self workdir w = (Return (mask, rough, blended), w).
Proof.
  intros Hm Hr Hb. unfold load_mask, bind, os_path_exists. simpl.
  rewrite (holds_image_exists _ _ _ Hm), (holds_image_exists _ _ _ Hr),
    (holds_image_exists _ _ _ Hb). simpl.
  rewrite (Image_open_holds _ _ _ Hm), (Image_open_holds _ _ _ Hr),
    (Image_open_holds _ _ _ Hb). reflexivity.
Qed.

(** ** C3: loading from an incomplete directory *)

(** C3, as the code has it.  [load_mask] looks for the three mask files
    only.  If [mask.bmp], [rough_mask.bmp] or [blended_mask.bmp] is missing
    from the working directory it raises the [ValueError] and changes
    nothing; if the three are readable images it returns them, whether or
    not [original_image.bmp] is there. *)
Theorem load_mask_checks_the_three_masks (self : DiffEdit) (workdir : string)
    (w : World) :
  (path_exists w (join workdir "mask.bmp") = false
   \/ path_exists w (join workdir "rough_mask.bmp") = false
   \/ path_exists w (join workdir "blended_mask.bmp") = false ->
   load_mask self workdir w
   = (Raise (ValueError (mask_files_missing workdir)), w))
  /\ (forall mask rough blended : Image,
        holds_image w (join workdir "mask.bmp") mask ->
        holds_image w (join workdir "rough_mask.bmp") rough ->
        holds_image w (join workdir "blended_mask.bmp") blended ->
        load_mask self workdir w = (Return (mask, rough, blended), w)).
Proof.
  split.
  - apply load_mask_missing.
  - intros mask rough blended. apply load_mask_complete.
Qed.

(** ** Which files a computation touches *)

Lemma frame_refl (ps : list string) (w : World) : frame ps w w.
Proof. split; [reflexivity | intros p _; reflexivity]. Qed.

Lemma frame_trans (ps : list string) (w1 w2 w3 : World) :
  frame ps w1 w2 -> frame ps w2 w3 -> frame ps w1 w3.
Proof.
  intros [Hd12 Hf12] [Hd23 Hf23]. split; [congruence |].
  intros p Hp. rewrite (Hf23 p Hp). exact (Hf12 p Hp).
Qed.

Lemma frame_insert (ps : list string) (w : World) (p : string) (bs : list byte) :
  p ∈ ps -> frame ps w (with_files (<[p := bs]> (files w)) w).
Proof.
  intros Hp. split; [reflexivity |]. intros q Hq. simpl.
  apply lookup_insert_ne. intros ->. exact (Hq Hp).
Qed.

Lemma writes_within_bind {A B : Type} (ps : list string) (c : M A)
    (k : A -> M B) :
  writes_within ps c -> (forall a, writes_within ps (k a)) ->
  writes_within ps (bind c k).
Proof.
  intros Hc Hk w. specialize (Hc w). unfold bind.
  destruct (c w) as [[a|e] w1]; simpl in *; [| exact Hc].
  exact (frame_trans _ _ _ _ Hc (Hk a w1)).
Qed.

Lemma writes_within_open_wb {B : Type} (ps : list string) (p : string)
    (k : string -> M B) :
  p ∈ ps -> writes_within ps (k p) -> writes_within ps (bind (open_wb p) k).
Proof.
  intros Hp Hk w. unfold bind, open_wb.
  destruct (parent_error w p); [apply frame_refl |].
  destruct (bool_decide (p ∈ dirs w)); simpl; [apply frame_refl |].
  eapply frame_trans; [apply frame_insert; exact Hp | apply Hk].
Qed.

Lemma writes_within_Image_save (ps : list string) (im : Image) (f : string) :
  f ∈ ps -> writes_within ps (Image_save im f).
Proof.
  intros Hf w. unfold Image_save.
  destruct (bmp_encode im) as [bs|]; simpl;
    [apply frame_insert; exact Hf | apply frame_refl].
Qed.

Lemma writes_within_Image_open (ps : list string) (p : string) :
  writes_within ps (Image_open p).
Proof.
  intros w. destruct (Image_open p w) as [o w'] eqn:Hopen. simpl.
  rewrite (Image_open_world _ _ _ _ Hopen). apply frame_refl.
Qed.

Lemma save_mask_writes_within (self : DiffEdit) (mask rough blended : Image)
    (im_path workdir : string) :
  writes_within (mask_artifacts workdir)
    (save_mask self mask rough blended im_path workdir).
Proof.
  unfold save_mask, mask_artifacts.
  apply writes_within_open_wb; [set_solver |].
  apply writes_within_bind; [apply writes_within_Image_save; set_solver |].
  intros _. apply writes_within_open_wb; [set_solver |].
  apply writes_within_bind; [apply writes_within_Image_save; set_solver |].
  intros _. apply writes_within_open_wb; [set_solver |].
  apply writes_within_bind; [apply writes_within_Image_save; set_solver |].
  intros _. apply writes_within_open_wb; [set_solver |].
  apply writes_within_bind; [apply writes_within_Image_open |].
  intros im. apply writes_within_Image_save; set_solver.
Qed.

Lemma save_inpainted_image_writes_within (self : DiffEdit) (inpainted : Image)
    (workdir : string) :
  writes_within [join workdir "inpainted_image.bmp"]
    (save_inpainted_image self inpainted workdir).
Proof.
  unfold save_inpainted_image.
  apply writes_within_open_wb; [set_solver |].
  apply writes_within_Image_save; set_solver.
Qed.

(** ** What a completed save leaves behind *)

Lemma open_wb_inv (p f : string) (w w1 : World) :
  open_wb p w = (Return f, w1) ->
  f = p /\ creatable w p /\ w1 = with_files (<[p := []]> (files w)) w.
Proof.
  unfold open_wb, creatable.
  destruct (parent_error w p) eqn:Hparent; [discriminate |].
  destruct (bool_decide (p ∈ dirs w)) eqn:Hdir; [discriminate |].
  intros [= <- <-]. apply bool_decide_eq_false in Hdir. auto.
Qed.

Lemma creatable_same_dirs (w w' : World) (p : string) :
  dirs w' = dirs w -> creatable w p -> creatable w' p.
Proof.
  unfold creatable, parent_error. intros ->.
  destruct (is_empty (dirname p) || bool_decide (dirname p ∈ dirs w));
    [tauto |].
  destruct (bool_decide (is_Some (files w !! dirname p))); intros [[=] _].
Qed.

Lemma creatable_with_files (fs : gmap string (list byte)) (w : World)
    (p : string) :
  creatable (with_files fs w) p <-> creatable w p.
Proof.
  split; apply creatable_same_dirs; reflexivity.
Qed.

Lemma Image_save_inv (im : Image) (f : string) (x : NoneType) (w w1 : World) :
  Image_save im f w = (Return x, w1) ->
  exists bs, bmp_encode im = Some bs /\ w1 = with_files (<[f := bs]> (files w)) w.
Proof.
  unfold Image_save. destruct (bmp_encode im) as [bs|]; [| discriminate].
  intros [= _ <-]. exists bs. auto.
Qed.

Lemma Image_open_inv (p : string) (im : Image) (w w1 : World) :
  Image_open p w = (Return im, w1) -> w1 = w /\ holds_image w p im.
Proof.
  intros Hopen. split; [exact (Image_open_world _ _ _ _ Hopen) |].
  revert Hopen. unfold Image_open, bind, read_file, holds_image.
  destruct (bool_decide (p ∈ dirs w)) eqn:Hdir; [discriminate |].
  apply bool_decide_eq_false in Hdir.
  destruct (files w !! p) as [bs|]; [| discriminate].
  destruct (image_decode bs) as [im'|] eqn:Hdec; [| discriminate].
  intros [= <- _]. eauto.
Qed.

(** One [with open(p, "wb") as f: im.save(f)] block that completed. *)
Lemma save_block_inv {B : Type} (im : Image) (p : string) (k : M B)
    (b : B) (w w' : World) :
  bind (open_wb p) (fun f => bind (Image_save im f) (fun _ => k)) w
  = (Return b, w') ->
  exists bs,
    bmp_encode im = Some bs /\ creatable w p
    /\ k (with_files (<[p := bs]> (<[p := []]> (files w))) w) = (Return b, w').
Proof.
  intros Hrun.
  apply bind_Return_inv in Hrun as (f & w1 & Hopen & Hrun).
  apply open_wb_inv in Hopen as (-> & Hdir & ->).
  apply bind_Return_inv in Hrun as (x & w2 & Hsave & Hrun).
  apply Image_save_inv in Hsave as (bs & Henc & ->).
  exists bs. split; [exact Henc |]. split; [exact Hdir | exact Hrun].
Qed.

Lemma save_block_returns {B : Type} (im : Image) (p : string) (k : M B)
    (bs : list byte) (w : World) :
  creatable w p -> bmp_encode im = Some bs ->
  bind (open_wb p) (fun f => bind (Image_save im f) (fun _ => k)) w
  = k (with_files (<[p := bs]> (<[p := []]> (files w))) w).
Proof.
  intros [Hparent Hdir] Henc. unfold bind, open_wb, Image_save.
  rewrite Hparent, bool_decide_eq_false_2 by exact Hdir. rewrite Henc.
  reflexivity.
Qed.


Lemma save_mask_stored (self : DiffEdit) (mask rough blended : Image)
    (im_path workdir : string) (x : NoneType) (w w' : World) :
  save_mask self mask rough blended im_path workdir w = (Return x, w') ->
  dirs w' = dirs w
  /\ Forall (fun p => p ∉ dirs w) (mask_artifacts workdir)
  /\ stored w' (join workdir "mask.bmp") mask
  /\ stored w' (join workdir "rough_mask.bmp") rough
  /\ stored w' (join workdir "blended_mask.bmp") blended
  /\ exists im, stored w' (join workdir "original_image.bmp")
                  (resize im working_size).
Proof.
  unfold save_mask. intros Hrun.
  apply save_block_inv in Hrun as (bs1 & Henc1 & Hdir1 & Hrun).
  apply save_block_inv in Hrun as (bs2 & Henc2 & Hdir2 & Hrun).
  apply save_block_inv in Hrun as (bs3 & Henc3 & Hdir3 & Hrun).
  apply bind_Return_inv in Hrun as (f & w4 & Hopen & Hrun).
  apply open_wb_inv in Hopen as (-> & Hdir4 & ->).
  apply bind_Return_inv in Hrun as (im & w5 & Hopen & Hrun).
  apply Image_open_inv in Hopen as (-> & _).
  apply Image_save_inv in Hrun as (bs4 & Henc4 & ->).
  destruct Hdir1 as [_ Hdir1], Hdir2 as [_ Hdir2], Hdir3 as [_ Hdir3],
    Hdir4 as [_ Hdir4].
  simpl in *.
  assert (join workdir "mask.bmp" <> join workdir "rough_mask.bmp") by artifact_ne.
  assert (join workdir "mask.bmp" <> join workdir "blended_mask.bmp") by artifact_ne.
  assert (join workdir "mask.bmp" <> join workdir "original_image.bmp") by artifact_ne.
  assert (join workdir "rough_mask.bmp" <> join workdir "blended_mask.bmp") by artifact_ne.
  assert (join workdir "rough_mask.bmp" <> join workdir "original_image.bmp") by artifact_ne.
  assert (join workdir "blended_mask.bmp" <> join workdir "original_image.bmp") by artifact_ne.
  split; [reflexivity |].
  split; [unfold mask_artifacts; repeat constructor; assumption |].
  unfold stored; simpl.
  split; [exists bs1; split; [exact Henc1 | by simplify_map_eq] |].
  split; [exists bs2; split; [exact Henc2 | by simplify_map_eq] |].
  split; [exists bs3; split; [exact Henc3 | by simplify_map_eq] |].
  exists im, bs4. split; [exact Henc4 | by simplify_map_eq].
Qed.

Lemma save_inpainted_image_stored (self : DiffEdit) (inpainted : Image)
    (workdir : string) (x : NoneType) (w w' : World) :
  save_inpainted_image self inpainted workdir w = (Return x, w') ->
  stored w' (join workdir "inpainted_image.bmp") inpainted.
Proof.
  unfold save_inpainted_image. intros Hrun.
  apply bind_Return_inv in Hrun as (f & w1 & Hopen & Hrun).
  apply open_wb_inv in Hopen as (-> & _ & ->).
  apply Image_save_inv in Hrun as (bs & Henc & ->).
  exists bs. split; [exact Henc | by simplify_map_eq].
Qed.

(** ** C8: the files the two saves write *)


(** ** C4: saving and loading again *)

Lemma stored_holds_image (w : World) (p : string) (im : Image) :
  stored w p im -> bmp_roundtrips im -> p ∉ dirs w -> holds_image w p im.
Proof.
  intros (bs & Henc & Hfile) (bs' & Henc' & Hdec) Hdir.
  split; [exact Hdir |]. exists bs. split; [exact Hfile |]. congruence.
Qed.

Lemma load_after_save (self : DiffEdit) (mask rough blended : Image)
    (im_path workdir : string) (x : NoneType) (w w' : World) :
  save_mask self mask rough blended im_path workdir w = (Return x, w') ->
  bmp_roundtrips mask -> bmp_roundtrips rough -> bmp_roundtrips blended ->
  load_mask self workdir w' = (Return (mask, rough, blended), w').
Proof.
  intros Hsave Hm Hr Hb.
  apply save_mask_stored in Hsave
    as (Hdirs & Hfiles & Hsm & Hsr & Hsb & _).
  unfold mask_artifacts in Hfiles. rewrite <- Hdirs in Hfiles.
  apply Forall_cons in Hfiles as [Hd1 Hfiles].
  apply Forall_cons in Hfiles as [Hd2 Hfiles].
  apply Forall_cons in Hfiles as [Hd3 _].
  apply load_mask_complete; apply stored_holds_image; assumption.
Qed.

(** C4, as the code has it.  Not every triple of images comes back: the
    three that do are those that the BMP codec reads back as it wrote them.
    For every such mask, rough mask and blended mask, after [save_mask] has
    completed in a working directory, [load_mask] from that directory
    returns the very three images that were saved (mode, size and pixel
    bytes); loading changes nothing. *)
Theorem save_then_load_returns_the_masks (self : DiffEdit)
    (mask rough blended : Image) (im_path workdir : string) (w w' : World) :
  save_mask self mask rough blended im_path workdir w = (Return PyNone, w') ->
  bmp_roundtrips mask -> bmp_roundtrips rough -> bmp_roundtrips blended ->
  load_mask self workdir w' = (Return (mask, rough, blended), w').
Proof.
  intros Hsave Hmask Hrough Hblended.
  destruct (save_mask_stored _ _ _ _ _ _ _ _ _ Hsave)
    as (Hdirs & Hfree & Hstored_mask & Hstored_rough & Hstored_blended & _).
  assert (Hfree' : Forall (fun p => p ∉ dirs w') (mask_artifacts workdir))
    by (rewrite Hdirs; exact Hfree).
  unfold mask_artifacts in Hfree'.
  apply Forall_cons in Hfree' as [Hfree_mask Hfree'].
  apply Forall_cons in Hfree' as [Hfree_rough Hfree'].
  apply Forall_cons in Hfree' as [Hfree_blended _].
  apply load_mask_complete.
  - exact (stored_holds_image _ _ _ Hstored_mask Hmask Hfree_mask).
  - exact (stored_holds_image _ _ _ Hstored_rough Hrough Hfree_rough).
  - exact (stored_holds_image _ _ _ Hstored_blended Hblended Hfree_blended).
Qed.

(** ** The mask generator's loop *)

Lemma draw_noise_run (seed : Z) (i : nat) (w : World) :
  draw_noise seed i w
  = (Return (noise_sample seed i),
     with_rng (snd (randn (manual_seed (seed_for_iteration seed i)))) w).
Proof.
  unfold draw_noise, bind, torch_manual_seed, modify, torch_randn, noise_sample.
  simpl. destruct (randn (manual_seed (seed_for_iteration seed i))).
  reflexivity.
Qed.

(** Whatever state the global generator is in, the loop returns the sum
    that the inputs determine, and leaves the generator where the last draw
    put it. *)
Lemma accumulate_divergence_run (mg : MaskGenerator) (latent : Tensor)
    (p1 p2 : string) (seed : Z) (iterations : list nat) (acc : Tensor)
    (w : World) :
  accumulate_divergence mg latent p1 p2 seed iterations acc w
  = (Return
       (fold_left
          (fun a i => tensor_add a (iteration_divergence mg latent p1 p2 seed i))
          iterations acc),
     with_rng
       match last iterations with
       | Some i => snd (randn (manual_seed (seed_for_iteration seed i)))
       | None => rng w
       end w).
Proof.
  revert acc w. induction iterations as [|i rest IH]; intros acc w.
  - destruct w; reflexivity.
  - simpl accumulate_divergence.
    rewrite (bind_Return _ _ _ _ _ (draw_noise_run seed i w)), IH.
    destruct rest as [|j rest']; [reflexivity |].
    change (last (i :: j :: rest')) with (last (j :: rest')).
    destruct (last (j :: rest')) eqn:Hlast; [reflexivity |].
    apply last_None in Hlast. discriminate Hlast.
Qed.

Lemma calc_diffedit_mask_run (mg : MaskGenerator) (latent : Tensor)
    (p1 p2 : string) (n seed : Z) (w : World) :
  calc_diffedit_mask mg latent p1 p2 n seed w
  = (Return (smooth (threshold (normalize
               (accumulated_divergence mg latent p1 p2 n seed)))),
     mkWorld (files w) (dirs w) (devices w) (grad_enabled w)
       (Some (smooth (threshold (normalize
                (accumulated_divergence mg latent p1 p2 n seed)))))
       (Some (threshold (normalize
                (accumulated_divergence mg latent p1 p2 n seed))))
       (journal w ++ [CallCalcDiffeditMask mg latent p1 p2 n seed])
       (rng_after seed n (rng w))).
Proof.
  unfold calc_diffedit_mask. unfold bind at 1. unfold record, modify.
  rewrite (bind_Return _ _ _ _ _ (accumulate_divergence_run _ _ _ _ _ _ _ _)).
  reflexivity.
Qed.

(** ** What reading depends on *)

Lemma Image_open_run (p : string) (w : World) :
  Image_open p w = (fst (Image_open p w), w).
Proof.
  destruct (Image_open p w) as [o w'] eqn:Hopen.
  rewrite (Image_open_world _ _ _ _ Hopen). reflexivity.
Qed.

Lemma Image_open_same_file (p : string) (w1 w2 : World) :
  files w1 !! p = files w2 !! p -> dirs w1 = dirs w2 ->
  fst (Image_open p w1) = fst (Image_open p w2).
Proof.
  intros Hfile Hdirs. unfold Image_open, bind, read_file.
  rewrite Hfile, Hdirs.
  destruct (bool_decide (p ∈ dirs w2)); [reflexivity |].
  destruct (files w2 !! p) as [bs|]; [| reflexivity].
  destruct (image_decode bs); reflexivity.
Qed.

Lemma path_exists_same_file (p : string) (w1 w2 : World) :
  files w1 !! p = files w2 !! p -> dirs w1 = dirs w2 ->
  path_exists w1 p = path_exists w2 p.
Proof. intros Hfile Hdirs. unfold path_exists. rewrite Hfile, Hdirs. reflexivity. Qed.

Lemma Image_open_raises (p : string) (e : PyError) (w : World) :
  fst (Image_open p w) = Raise e -> Image_open p w = (Raise e, w).
Proof. intros Hraise. rewrite Image_open_run, Hraise. reflexivity. Qed.

(** [get_mask], as one pass over the world. *)
Lemma get_mask_run (self : DiffEdit) (im_path p1 p2 : string) (seed n : Z)
    (w : World) :
  get_mask self im_path p1 p2 seed n w
  = match fst (Image_open im_path w) with
    | Raise e => (Raise e, w)
    | Return im0 =>
        match image_processor self with
        | None =>
            (Raise (AttributeError (no_attribute "DiffEdit" "image_processor")),
             w)
        | Some ip =>
            let im := resize im0 working_size in
            let latent := img2latent ip im VAE_CONST in
            match mask_generator self with
            | None =>
                (Raise (AttributeError
                          (no_attribute "DiffEdit" "mask_generator")),
                 with_journal (journal w ++ [CallImg2Latent ip im VAE_CONST]) w)
            | Some mg =>
                (Return (generated_masks ip mg im0 p1 p2 n seed),
                 mkWorld (files w) (dirs w) (devices w) (grad_enabled w)
                   (Some (fst (fst (generated_masks ip mg im0 p1 p2 n seed))))
                   (Some (snd (fst (generated_masks ip mg im0 p1 p2 n seed))))
                   (journal w
                      ++ [CallImg2Latent ip im VAE_CONST;
                          CallCalcDiffeditMask mg latent p1 p2 n seed;
                          CallGetBlendedMask ip im
                            (fst (fst (generated_masks ip mg im0 p1 p2 n seed)))])
                   (rng_after seed n (rng w)))
            end
        end
    end.
Proof.
  unfold get_mask. unfold bind at 1. rewrite (Image_open_run im_path w).
  destruct (fst (Image_open im_path w)) as [im0|e]; [| reflexivity].
  destruct (image_processor self) as [ip|]; [| reflexivity].
  unfold bind at 1. simpl attr. unfold ret at 1.
  unfold bind at 1. unfold ImageProcessor_img2latent, bind, record, modify, ret.
  simpl.
  destruct (mask_generator self) as [mg|]; [| reflexivity].
  simpl. rewrite calc_diffedit_mask_run. simpl.
  rewrite <- !app_assoc. reflexivity.
Qed.

(** ** C7: source images are resized before they are processed *)

Lemma keeps_bind {A B : Type} (c : M A) (k : A -> M B) :
  keeps_resize_invariant c -> (forall a, keeps_resize_invariant (k a)) ->
  keeps_resize_invariant (bind c k).
Proof.
  intros Hc Hk w Hinv. specialize (Hc w Hinv). unfold bind.
  destruct (c w) as [[a|e] w1]; simpl in *; [exact (Hk a w1 Hc) | exact Hc].
Qed.

Lemma keeps_quiet {A : Type} (c : M A) :
  (forall w, journal (snd (c w)) = journal w) -> keeps_resize_invariant c.
Proof. intros Hquiet w Hinv. unfold resize_invariant. rewrite Hquiet. exact Hinv. Qed.

Lemma keeps_record (e : Event) :
  at_working_size e -> keeps_resize_invariant (record e).
Proof.
  intros He w Hinv. unfold resize_invariant. simpl.
  apply Forall_app. split; [exact Hinv | repeat constructor; exact He].
Qed.

Lemma keeps_ret {A : Type} (a : A) : keeps_resize_invariant (ret a).
Proof. apply keeps_quiet. reflexivity. Qed.

Lemma keeps_raise {A : Type} (e : PyError) : keeps_resize_invariant (@raise _ A e).
Proof. apply keeps_quiet. reflexivity. Qed.

Lemma keeps_attr {A : Type} (o : option A) (msg : string) :
  keeps_resize_invariant (attr o msg).
Proof. destruct o; [apply keeps_ret | apply keeps_raise]. Qed.

Lemma keeps_os_path_exists (p : string) : keeps_resize_invariant (os_path_exists p).
Proof. apply keeps_quiet. reflexivity. Qed.

Lemma keeps_Image_open (p : string) : keeps_resize_invariant (Image_open p).
Proof.
  apply keeps_quiet. intros w. destruct (Image_open p w) as [o w'] eqn:Hopen.
  simpl. rewrite (Image_open_world _ _ _ _ Hopen). reflexivity.
Qed.

Lemma keeps_open_wb (p : string) : keeps_resize_invariant (open_wb p).
Proof.
  apply keeps_quiet. intros w. unfold open_wb.
  destruct (parent_error w p); [reflexivity |].
  destruct (bool_decide (p ∈ dirs w)); reflexivity.
Qed.

Lemma keeps_Image_save (im : Image) (f : string) :
  keeps_resize_invariant (Image_save im f).
Proof.
  apply keeps_quiet. intros w. unfold Image_save.
  destruct (bmp_encode im); reflexivity.
Qed.

Lemma keeps_calc_diffedit_mask (mg : MaskGenerator) (latent : Tensor)
    (p1 p2 : string) (n seed : Z) :
  keeps_resize_invariant (calc_diffedit_mask mg latent p1 p2 n seed).
Proof.
  intros w Hinv. rewrite calc_diffedit_mask_run. unfold resize_invariant.
  simpl. apply Forall_app. split; [exact Hinv | repeat constructor].
Qed.

(** Walks down a method body, one statement at a time. *)
Ltac keeps_step :=
  match goal with
  | |- keeps_resize_invariant (bind _ _) => apply keeps_bind; [| intros ?]
  | |- keeps_resize_invariant (if ?b then _ else _) => destruct b
  | |- keeps_resize_invariant (let '(_, _) := ?x in _) => destruct x
  | |- keeps_resize_invariant (ret _) => apply keeps_ret
  | |- keeps_resize_invariant (raise _) => apply keeps_raise
  | |- keeps_resize_invariant (attr _ _) => apply keeps_attr
  | |- keeps_resize_invariant (os_path_exists _) => apply keeps_os_path_exists
  | |- keeps_resize_invariant (Image_open _) => apply keeps_Image_open
  | |- keeps_resize_invariant (open_wb _) => apply keeps_open_wb
  | |- keeps_resize_invariant (Image_save _ _) => apply keeps_Image_save
  | |- keeps_resize_invariant (calc_diffedit_mask _ _ _ _ _ _) =>
      apply keeps_calc_diffedit_mask
  | |- keeps_resize_invariant (record _) =>
      apply keeps_record; first [exact I | reflexivity]
  | |- keeps_resize_invariant (fun w => attr _ _ w) =>
      apply keeps_quiet; intros [? ? ? ? [?|] [?|] ? ?]; reflexivity
  end.

Lemma keeps_get_mask (self : DiffEdit) (im_path p1 p2 : string) (seed n : Z) :
  keeps_resize_invariant (get_mask self im_path p1 p2 seed n).
Proof.
  unfold get_mask, ImageProcessor_img2latent, ImageProcessor_get_blended_mask.
  repeat keeps_step.
Qed.

Lemma keeps_create_mask (self : DiffEdit) (im_path p1 p2 : string) (n seed : Z) :
  keeps_resize_invariant (create_mask self im_path p1 p2 n seed).
Proof.
  unfold create_mask, logging_info. repeat keeps_step. apply keeps_get_mask.
Qed.

Lemma keeps_save_mask (self : DiffEdit) (mask rough blended : Image)
    (im_path workdir : string) :
  keeps_resize_invariant (save_mask self mask rough blended im_path workdir).
Proof. unfold save_mask. repeat keeps_step. Qed.

Lemma keeps_save_inpainted_image (self : DiffEdit) (inpainted : Image)
    (workdir : string) :
  keeps_resize_invariant (save_inpainted_image self inpainted workdir).
Proof. unfold save_inpainted_image. repeat keeps_step. Qed.

Lemma keeps_load_mask (self : DiffEdit) (workdir : string) :
  keeps_resize_invariant (load_mask self workdir).
Proof. unfold load_mask. repeat keeps_step. Qed.

Lemma keeps_inpaint_mask_with_prompt (self : DiffEdit) (im_path : string)
    (mask : Image) (p2 : string) (seed : Z) :
  keeps_resize_invariant (inpaint_mask_with_prompt self im_path mask p2 seed).
Proof.
  unfold inpaint_mask_with_prompt, logging_info, Inpainter_inpaint_mask.
  repeat keeps_step.
Qed.

Lemma keeps_demo_diffedit (self : DiffEdit) (im_path p1 p2 : string) (n seed : Z) :
  keeps_resize_invariant (demo_diffedit self im_path p1 p2 n seed).
Proof.
  unfold demo_diffedit, logging_info.
  repeat first
    [ apply keeps_create_mask | apply keeps_save_mask | apply keeps_load_mask
    | apply keeps_inpaint_mask_with_prompt | apply keeps_save_inpainted_image
    | keeps_step ].
Qed.

(** C7.  In a world where every source image processed so far had the
    working resolution [IMG_RESIZE_DIM] x [IMG_RESIZE_DIM], this is still so
    after [get_mask], after [inpaint_mask_with_prompt] and after the whole
    [demo_diffedit], however they end: the image handed to the latent
    encoder, to the blending and to the inpainter is the resized one.  And
    the original image that a completed [save_mask] has written is an image
    of the working resolution. *)
Theorem sources_are_resized_before_processing (self : DiffEdit)
    (im_path p1 p2 workdir : string) (n seed : Z) (mask rough blended : Image)
    (w : World) :
  resize_invariant w ->
  resize_invariant (snd (get_mask self im_path p1 p2 seed n w))
  /\ resize_invariant (snd (inpaint_mask_with_prompt self im_path mask p2 seed w))
  /\ resize_invariant (snd (demo_diffedit self im_path p1 p2 n seed w))
  /\ (forall w',
        save_mask self mask rough blended im_path workdir w = (Return PyNone, w') ->
        exists im,
          im_size im = working_size
          /\ stored w' (join workdir "original_image.bmp") im).
Proof.
  intros Hinv.
  split; [exact (keeps_get_mask _ _ _ _ _ _ w Hinv) |].
  split; [exact (keeps_inpaint_mask_with_prompt _ _ _ _ _ w Hinv) |].
  split; [exact (keeps_demo_diffedit _ _ _ _ _ _ w Hinv) |].
  intros w' Hsave.
  apply save_mask_stored in Hsave as (_ & _ & _ & _ & _ & im & Hstored).
  exists (resize im working_size). split; [reflexivity | exact Hstored].
Qed.

(** ** Runs that complete *)

Lemma logging_info_run (msg : string) (w : World) :
  logging_info msg w = (Return PyNone, logged msg w).
Proof. reflexivity. Qed.

Lemma holds_image_frame (ps : list string) (w w' : World) (p : string)
    (im : Image) :
  frame ps w w' -> p ∉ ps -> holds_image w p im -> holds_image w' p im.
Proof.
  intros [Hdirs Hfiles] Hp [Hdir Hfile]. unfold holds_image.
  rewrite Hdirs, (Hfiles p Hp). auto.
Qed.

Lemma get_mask_returns (self : DiffEdit) (ip : ImageProcessor)
    (mg : MaskGenerator) (im0 : Image) (im_path p1 p2 : string) (seed n : Z)
    (w : World) :
  holds_image w im_path im0 ->
  image_processor self = Some ip -> mask_generator self = Some mg ->
  exists w1,
    get_mask self im_path p1 p2 seed n w
    = (Return (generated_masks ip mg im0 p1 p2 n seed), w1)
    /\ frame [] w w1.
Proof.
  intros Himage Hip Hmg. rewrite get_mask_run.
  rewrite (Image_open_holds _ _ _ Himage), Hip, Hmg. simpl.
  eexists. split; [reflexivity | split; [reflexivity | intros p _; reflexivity]].
Qed.

Lemma create_mask_returns (self : DiffEdit) (ip : ImageProcessor)
    (mg : MaskGenerator) (im0 : Image) (im_path p1 p2 : string) (n seed : Z)
    (w : World) :
  holds_image w im_path im0 ->
  image_processor self = Some ip -> mask_generator self = Some mg ->
  exists w1,
    create_mask self im_path p1 p2 n seed w
    = (Return (generated_masks ip mg im0 p1 p2 n seed), w1)
    /\ frame [] w w1.
Proof.
  intros Himage Hip Hmg. unfold create_mask.
  unfold bind at 1. unfold os_path_exists.
  rewrite (holds_image_exists _ _ _ Himage). simpl.
  rewrite (bind_Return _ _ _ _ _ (logging_info_run _ _)).
  destruct (get_mask_returns self ip mg im0 im_path p1 p2 seed n
              (logged (obtaining_the_mask n) w)) as (w1 & Hget & Hframe);
    [exact Himage | exact Hip | exact Hmg |].
  rewrite (bind_Return _ _ _ _ _ Hget).
  exists w1. split; [reflexivity | exact Hframe].
Qed.

Lemma inpaint_mask_with_prompt_returns (self : DiffEdit) (inp : Inpainter)
    (im0 mask : Image) (im_path p2 : string) (seed : Z) (w : World) :
  holds_image w im_path im0 -> inpainter self = Some inp ->
  exists w',
    inpaint_mask_with_prompt self im_path mask p2 seed w
    = (Return (inpaint_mask inp (resize im0 working_size) mask p2 seed), w')
    /\ frame [] w w'.
Proof.
  intros Himage Hinp. unfold inpaint_mask_with_prompt.
  unfold bind at 1. unfold os_path_exists.
  rewrite (holds_image_exists _ _ _ Himage). simpl.
  rewrite (bind_Return _ _ _ _ _ (Image_open_holds _ _ _ Himage)).
  rewrite Hinp. destruct w as [fs ds dv g pm rm j gen].
  eexists. split; [reflexivity | split; [reflexivity | intros p _; reflexivity]].
Qed.

Lemma save_inpainted_image_returns (self : DiffEdit) (inpainted : Image)
    (workdir : string) (w : World) :
  creatable w (join workdir "inpainted_image.bmp") ->
  is_Some (bmp_encode inpainted) ->
  exists w',
    save_inpainted_image self inpainted workdir w = (Return PyNone, w').
Proof.
  intros [Hparent Hdir] [bs Henc].
  unfold save_inpainted_image, bind, open_wb, Image_save.
  rewrite Hparent, bool_decide_eq_false_2 by exact Hdir. rewrite Henc.
  eexists. reflexivity.
Qed.

(** ** C1: mask generation is repeatable *)

(** [create_mask], as its guard, its log line and [get_mask]. *)
Lemma create_mask_run (self : DiffEdit) (im_path p1 p2 : string) (n seed : Z)
    (w : World) :
  create_mask self im_path p1 p2 n seed w
  = if path_exists w im_path
    then get_mask self im_path p1 p2 seed n (logged (obtaining_the_mask n) w)
    else (Raise (ValueError (image_path_missing im_path)), w).
Proof.
  unfold create_mask. unfold bind at 1. unfold os_path_exists.
  destruct (path_exists w im_path); simpl; [| reflexivity].
  rewrite (bind_Return _ _ _ _ _ (logging_info_run _ _)). unfold bind.
  destruct (get_mask self im_path p1 p2 seed n (logged (obtaining_the_mask n) w))
    as [[[[mask rough] blended]|e] w1]; reflexivity.
Qed.

(** The outcome depends on the world through the file at the path only:
    not on the global generator, the masks the generator holds, the journal,
    the devices or any other file. *)
Lemma get_mask_same_file (self : DiffEdit) (im_path p1 p2 : string)
    (seed n : Z) (w1 w2 : World) :
  files w1 !! im_path = files w2 !! im_path -> dirs w1 = dirs w2 ->
  fst (get_mask self im_path p1 p2 seed n w1)
  = fst (get_mask self im_path p1 p2 seed n w2).
Proof.
  intros Hfile Hdirs. rewrite !get_mask_run.
  rewrite (Image_open_same_file im_path w1 w2 Hfile Hdirs).
  destruct (fst (Image_open im_path w2)) as [im0|e]; [| reflexivity].
  destruct (image_processor self) as [ip|]; [| reflexivity].
  destruct (mask_generator self) as [mg|]; reflexivity.
Qed.

Lemma create_mask_same_file (self : DiffEdit) (im_path p1 p2 : string)
    (n seed : Z) (w1 w2 : World) :
  files w1 !! im_path = files w2 !! im_path -> dirs w1 = dirs w2 ->
  fst (create_mask self im_path p1 p2 n seed w1)
  = fst (create_mask self im_path p1 p2 n seed w2).
Proof.
  intros Hfile Hdirs. rewrite !create_mask_run.
  rewrite (path_exists_same_file im_path w1 w2 Hfile Hdirs).
  destruct (path_exists w2 im_path); [| reflexivity].
  apply get_mask_same_file; assumption.
Qed.

(** What a call leaves behind: the files as they were, and on the generator
    the masks it returned, or the ones that were there when it raised. *)
Lemma get_mask_leaves (self : DiffEdit) (im_path p1 p2 : string)
    (seed n : Z) (w : World) :
  files (snd (get_mask self im_path p1 p2 seed n w)) = files w
  /\ dirs (snd (get_mask self im_path p1 p2 seed n w)) = dirs w
  /\ processed_mask (snd (get_mask self im_path p1 p2 seed n w))
     = match fst (get_mask self im_path p1 p2 seed n w) with
       | Return masks => Some (fst (fst masks))
       | Raise _ => processed_mask w
       end
  /\ rough_mask (snd (get_mask self im_path p1 p2 seed n w))
     = match fst (get_mask self im_path p1 p2 seed n w) with
       | Return masks => Some (snd (fst masks))
       | Raise _ => rough_mask w
       end.
Proof.
  rewrite get_mask_run.
  destruct (fst (Image_open im_path w)) as [im0|e]; [| repeat split].
  destruct (image_processor self) as [ip|]; [| repeat split].
  destruct (mask_generator self) as [mg|]; repeat split.
Qed.

Lemma create_mask_leaves (self : DiffEdit) (im_path p1 p2 : string)
    (n seed : Z) (w : World) :
  files (snd (create_mask self im_path p1 p2 n seed w)) = files w
  /\ dirs (snd (create_mask self im_path p1 p2 n seed w)) = dirs w
  /\ processed_mask (snd (create_mask self im_path p1 p2 n seed w))
     = match fst (create_mask self im_path p1 p2 n seed w) with
       | Return masks => Some (fst (fst masks))
       | Raise _ => processed_mask w
       end
  /\ rough_mask (snd (create_mask self im_path p1 p2 n seed w))
     = match fst (create_mask self im_path p1 p2 n seed w) with
       | Return masks => Some (snd (fst masks))
       | Raise _ => rough_mask w
       end.
Proof.
  rewrite create_mask_run.
  destruct (path_exists w im_path); [| repeat split].
  exact (get_mask_leaves self im_path p1 p2 seed n
           (logged (obtaining_the_mask n) w)).
Qed.

(** C1.  Calling [create_mask] again with the same image path, prompts,
    iteration count and seed, in the world the first call left behind (where
    the global generator has moved on and the generator object holds the
    first call's masks), ends the same way: the same processed mask, rough
    mask and blended image, or the same exception; and the generator object
    holds the same two masks after either call.  The same holds of
    [get_mask].  More generally the outcome is the same in any two worlds
    that have the same directories and the same file at the path, whatever
    the state of the global generator, the stored masks, the journal and the
    other files are.  Whenever the path holds an image and the helpers are
    wired, what is returned is [generated_masks] of that image, the prompts,
    the iteration count and the seed, and the global generator is left where
    the last draw of noise put it.  In particular the seeding done when the
    module is imported, and any state the global generator has been put in
    since, make no difference to the masks. *)
Theorem mask_generation_is_repeatable (self : DiffEdit)
    (im_path p1 p2 : string) (n seed : Z) (w : World) :
  (fst (create_mask self im_path p1 p2 n seed
          (snd (create_mask self im_path p1 p2 n seed w)))
   = fst (create_mask self im_path p1 p2 n seed w)
   /\ processed_mask (snd (create_mask self im_path p1 p2 n seed
                             (snd (create_mask self im_path p1 p2 n seed w))))
      = processed_mask (snd (create_mask self im_path p1 p2 n seed w))
   /\ rough_mask (snd (create_mask self im_path p1 p2 n seed
                         (snd (create_mask self im_path p1 p2 n seed w))))
      = rough_mask (snd (create_mask self im_path p1 p2 n seed w)))
  /\ (fst (get_mask self im_path p1 p2 seed n
             (snd (get_mask self im_path p1 p2 seed n w)))
      = fst (get_mask self im_path p1 p2 seed n w)
      /\ processed_mask (snd (get_mask self im_path p1 p2 seed n
                                (snd (get_mask self im_path p1 p2 seed n w))))
         = processed_mask (snd (get_mask self im_path p1 p2 seed n w))
      /\ rough_mask (snd (get_mask self im_path p1 p2 seed n
                            (snd (get_mask self im_path p1 p2 seed n w))))
         = rough_mask (snd (get_mask self im_path p1 p2 seed n w)))
  /\ (forall w2 : World,
        files w2 !! im_path = files w !! im_path -> dirs w2 = dirs w ->
        fst (create_mask self im_path p1 p2 n seed w2)
        = fst (create_mask self im_path p1 p2 n seed w)
        /\ fst (get_mask self im_path p1 p2 seed n w2)
           = fst (get_mask self im_path p1 p2 seed n w))
  /\ (forall (ip : ImageProcessor) (mg : MaskGenerator) (im0 : Image),
        holds_image w im_path im0 ->
        image_processor self = Some ip -> mask_generator self = Some mg ->
        fst (create_mask self im_path p1 p2 n seed w)
        = Return (generated_masks ip mg im0 p1 p2 n seed)
        /\ fst (get_mask self im_path p1 p2 seed n w)
           = Return (generated_masks ip mg im0 p1 p2 n seed)
        /\ rng (snd (get_mask self im_path p1 p2 seed n w))
           = rng_after seed n (rng w))
  /\ (fst (create_mask self im_path p1 p2 n seed (snd (module_import w)))
      = fst (create_mask self im_path p1 p2 n seed w)
      /\ forall g : Generator,
          fst (create_mask self im_path p1 p2 n seed (with_rng g w))
          = fst (create_mask self im_path p1 p2 n seed w)
          /\ fst (get_mask self im_path p1 p2 seed n (with_rng g w))
             = fst (get_mask self im_path p1 p2 seed n w)).
Proof.
  split; [| split; [| split; [| split]]].
  - destruct (create_mask_leaves self im_path p1 p2 n seed w)
      as (Hfiles & Hdirs & Hprocessed & Hrough).
    assert (Hagain : fst (create_mask self im_path p1 p2 n seed
                            (snd (create_mask self im_path p1 p2 n seed w)))
                     = fst (create_mask self im_path p1 p2 n seed w))
      by (apply create_mask_same_file; [rewrite Hfiles | rewrite Hdirs];
          reflexivity).
    destruct (create_mask_leaves self im_path p1 p2 n seed
                (snd (create_mask self im_path p1 p2 n seed w)))
      as (_ & _ & Hprocessed' & Hrough').
    rewrite Hprocessed', Hrough', Hagain.
    split; [reflexivity |].
    destruct (fst (create_mask self im_path p1 p2 n seed w));
      [rewrite Hprocessed, Hrough |]; split; reflexivity.
  - destruct (get_mask_leaves self im_path p1 p2 seed n w)
      as (Hfiles & Hdirs & Hprocessed & Hrough).
    assert (Hagain : fst (get_mask self im_path p1 p2 seed n
                            (snd (get_mask self im_path p1 p2 seed n w)))
                     = fst (get_mask self im_path p1 p2 seed n w))
      by (apply get_mask_same_file; [rewrite Hfiles | rewrite Hdirs];
          reflexivity).
    destruct (get_mask_leaves self im_path p1 p2 seed n
                (snd (get_mask self im_path p1 p2 seed n w)))
      as (_ & _ & Hprocessed' & Hrough').
    rewrite Hprocessed', Hrough', Hagain.
    split; [reflexivity |].
    destruct (fst (get_mask self im_path p1 p2 seed n w));
      [rewrite Hprocessed, Hrough |]; split; reflexivity.
  - intros w2 Hfile Hdirs. split;
      [apply create_mask_same_file | apply get_mask_same_file]; assumption.
  - intros ip mg im0 Himage Hip Hmg.
    destruct (create_mask_returns self ip mg im0 im_path p1 p2 n seed w
                Himage Hip Hmg) as (w1 & -> & _).
    split; [reflexivity |].
    rewrite get_mask_run, (Image_open_holds _ _ _ Himage), Hip, Hmg.
    split; reflexivity.
  - split; [apply create_mask_same_file; reflexivity |].
    intros g. split;
      [apply create_mask_same_file | apply get_mask_same_file]; reflexivity.
Qed.

(** * Further properties of the facade *)

(** ** X1, X2: paths that are missing or unreadable *)

(** X1.  [inpaint_mask_with_prompt] and [demo_diffedit] carry the same guard
    as [create_mask]: on a path that does not exist each raises the
    [ValueError] naming the path and the world is exactly as it was; the
    demo has opened, logged, computed and written nothing. *)
Theorem missing_path_stops_inpainting_and_demo (self : DiffEdit)
    (im_path p1 p2 : string) (mask : Image) (n seed : Z) (w : World) :
  path_exists w im_path = false ->
  inpaint_mask_with_prompt self im_path mask p2 seed w
  = (Raise (ValueError (image_path_missing im_path)), w)
  /\ demo_diffedit self im_path p1 p2 n seed w
     = (Raise (ValueError (image_path_missing im_path)), w).
Proof.
  intros Hmissing.
  unfold inpaint_mask_with_prompt, demo_diffedit, bind, os_path_exists.
  rewrite Hmissing. split; reflexivity.
Qed.

(** X2.  The guard only asks whether the path exists.  When it exists and
    cannot be opened as an image (it is a directory, or its bytes are not an
    image), the three operations raise the error of [Image.open]:
    [create_mask] after its log line and before any collaborator is called,
    [inpaint_mask_with_prompt] and [demo_diffedit] before anything else
    happens. *)
Theorem unreadable_path_raises_the_open_error (self : DiffEdit)
    (im_path p1 p2 : string) (mask : Image) (n seed : Z) (e : PyError)
    (w : World) :
  path_exists w im_path = true ->
  fst (Image_open im_path w) = Raise e ->
  create_mask self im_path p1 p2 n seed w
  = (Raise e, logged (obtaining_the_mask n) w)
  /\ inpaint_mask_with_prompt self im_path mask p2 seed w = (Raise e, w)
  /\ demo_diffedit self im_path p1 p2 n seed w = (Raise e, w).
Proof.
  intros Hexists Hraise.
  pose proof (Image_open_raises _ _ _ Hraise) as Hopen.
  assert (Hopen' : Image_open im_path (logged (obtaining_the_mask n) w)
                   = (Raise e, logged (obtaining_the_mask n) w)).
  { apply Image_open_raises. rewrite <- Hraise.
    apply Image_open_same_file; reflexivity. }
  repeat split.
  - unfold create_mask. unfold bind at 1. unfold os_path_exists.
    rewrite Hexists. simpl.
    rewrite (bind_Return _ _ _ _ _ (logging_info_run _ _)).
    unfold get_mask, bind. rewrite Hopen'. reflexivity.
  - unfold inpaint_mask_with_prompt. unfold bind at 1. unfold os_path_exists.
    rewrite Hexists. simpl. unfold bind. rewrite Hopen. reflexivity.
  - unfold demo_diffedit. unfold bind at 1. unfold os_path_exists.
    rewrite Hexists. simpl. unfold bind. rewrite Hopen. reflexivity.
Qed.


(** ** X3 to X6: what [save_mask] leaves in the working directory *)

Lemma artifacts_distinct (workdir : string) :
  join workdir "mask.bmp" <> join workdir "rough_mask.bmp"
  /\ join workdir "mask.bmp" <> join workdir "blended_mask.bmp"
  /\ join workdir "mask.bmp" <> join workdir "original_image.bmp"
  /\ join workdir "rough_mask.bmp" <> join workdir "blended_mask.bmp"
  /\ join workdir "rough_mask.bmp" <> join workdir "original_image.bmp"
  /\ join workdir "blended_mask.bmp" <> join workdir "original_image.bmp".
Proof. repeat split; artifact_ne. Qed.

Lemma lookup_outside_artifacts (workdir : string) (bs1 bs2 bs3 x : list byte)
    (fs : gmap string (list byte)) (q : string) :
  q ∉ mask_artifacts workdir ->
  <[join workdir "original_image.bmp" := x]>
    (masks_written workdir bs1 bs2 bs3 fs) !! q = fs !! q.
Proof.
  unfold mask_artifacts, masks_written. intros Hq.
  rewrite !lookup_insert_ne by (intros <-; apply Hq; set_solver).
  reflexivity.
Qed.

Lemma lookup_mask_written (workdir : string) (bs1 bs2 bs3 x : list byte)
    (fs : gmap string (list byte)) :
  <[join workdir "original_image.bmp" := x]>
    (masks_written workdir bs1 bs2 bs3 fs) !! join workdir "mask.bmp" = Some bs1
  /\ <[join workdir "original_image.bmp" := x]>
       (masks_written workdir bs1 bs2 bs3 fs) !! join workdir "rough_mask.bmp"
     = Some bs2
  /\ <[join workdir "original_image.bmp" := x]>
       (masks_written workdir bs1 bs2 bs3 fs) !! join workdir "blended_mask.bmp"
     = Some bs3.
Proof.
  destruct (artifacts_distinct workdir) as (H12 & H13 & H14 & H23 & H24 & H34).
  unfold masks_written. repeat split; by simplify_map_eq.
Qed.

(** A completed [save_mask], step by step. *)
Lemma save_mask_completed (self : DiffEdit) (mask rough blended : Image)
    (im_path workdir : string) (x : NoneType) (w w' : World) :
  save_mask self mask rough blended im_path workdir w = (Return x, w') ->
  exists (bs1 bs2 bs3 bs4 : list byte) (im : Image),
    bmp_encode mask = Some bs1 /\ bmp_encode rough = Some bs2
    /\ bmp_encode blended = Some bs3
    /\ bmp_encode (resize im working_size) = Some bs4
    /\ Forall (creatable w) (mask_artifacts workdir)
    /\ holds_image
         (with_files (<[join workdir "original_image.bmp" := []]>
                        (masks_written workdir bs1 bs2 bs3 (files w))) w)
         im_path im
    /\ w' = with_files (<[join workdir "original_image.bmp" := bs4]>
                          (<[join workdir "original_image.bmp" := []]>
                             (masks_written workdir bs1 bs2 bs3 (files w)))) w.
Proof.
  unfold save_mask. intros Hrun.
  apply save_block_inv in Hrun as (bs1 & Henc1 & Hdir1 & Hrun).
  apply save_block_inv in Hrun as (bs2 & Henc2 & Hdir2 & Hrun).
  apply save_block_inv in Hrun as (bs3 & Henc3 & Hdir3 & Hrun).
  apply bind_Return_inv in Hrun as (f & w4 & Hopen & Hrun).
  apply open_wb_inv in Hopen as (-> & Hdir4 & ->).
  apply bind_Return_inv in Hrun as (im & w5 & Hopen & Hrun).
  apply Image_open_inv in Hopen as (-> & Himage).
  apply Image_save_inv in Hrun as (bs4 & Henc4 & ->).
  repeat apply creatable_with_files in Hdir2.
  repeat apply creatable_with_files in Hdir3.
  repeat apply creatable_with_files in Hdir4.
  exists bs1, bs2, bs3, bs4, im.
  split; [exact Henc1 |]. split; [exact Henc2 |]. split; [exact Henc3 |].
  split; [exact Henc4 |].
  split; [unfold mask_artifacts; repeat (constructor; [assumption |]);
          constructor |].
  split; [split; apply Himage | reflexivity].
Qed.

(** X3.  When a completed [save_mask] has left the file at the image path
    with the bytes it had before (it did not write over its own source), what
    it stored as [original_image.bmp] is the resized copy of the image that
    was at the path; for a codec that reads no image out of an empty
    file. *)
Theorem save_mask_stores_the_resized_source (self : DiffEdit)
    (mask rough blended im0 : Image) (im_path workdir : string)
    (w w' : World) :
  save_mask self mask rough blended im_path workdir w = (Return PyNone, w') ->
  holds_image w im_path im0 ->
  files w' !! im_path = files w !! im_path ->
  image_decode [] = None ->
  stored w' (join workdir "original_image.bmp") (resize im0 working_size).
Proof.
  intros Hsave [_ (bs0 & Hfile0 & Hdec0)] Hsame Hempty.
  apply save_mask_completed in Hsave
    as (bs1 & bs2 & bs3 & bs4 & im & _ & _ & _ & Henc4 & _ & Himage & ->).
  destruct Himage as [_ (bs & Hfile & Hdec)]. simpl in Hfile, Hsame.
  destruct (decide (im_path = join workdir "original_image.bmp")) as [-> | Hne].
  - rewrite lookup_insert_eq in Hfile. injection Hfile as <-. congruence.
  - rewrite lookup_insert_ne in Hfile by congruence.
    rewrite !lookup_insert_ne in Hsame by congruence.
    assert (im = im0) as -> by congruence.
    exists bs4. split; [exact Henc4 |]. simpl. apply lookup_insert_eq.
Qed.

(** X4.  When the image path is the working directory's own [mask.bmp],
    the mask is written over the image before the image is read: what a
    completed [save_mask] stores as [original_image.bmp] is then the resized
    mask (for a mask the codec reads back as written). *)
Theorem save_mask_over_its_source_stores_the_mask (self : DiffEdit)
    (mask rough blended : Image) (workdir : string) (w w' : World) :
  save_mask self mask rough blended (join workdir "mask.bmp") workdir w
  = (Return PyNone, w') ->
  bmp_roundtrips mask ->
  stored w' (join workdir "original_image.bmp") (resize mask working_size).
Proof.
  intros Hsave (bs & Henc & Hdec).
  apply save_mask_completed in Hsave
    as (bs1 & bs2 & bs3 & bs4 & im & Henc1 & _ & _ & Henc4 & _ & Himage & ->).
  destruct Himage as [_ (bs' & Hfile & Hdec')]. simpl in Hfile.
  rewrite (proj1 (lookup_mask_written workdir bs1 bs2 bs3 [] (files w))) in Hfile.
  assert (im = mask) as -> by congruence.
  exists bs4. split; [exact Henc4 |]. simpl. apply lookup_insert_eq.
Qed.

Lemma bind_Raise_inv {A B : Type} (c : M A) (k : A -> M B) w e w' :
  bind c k w = (Raise e, w') ->
  c w = (Raise e, w')
  \/ exists a w1, c w = (Return a, w1) /\ k a w1 = (Raise e, w').
Proof.
  unfold bind. destruct (c w) as [[a|e1] w1]; intros Hk.
  - right. exists a, w1. split; [reflexivity | exact Hk].
  - left. injection Hk as -> ->. reflexivity.
Qed.

(** An [open(p, "wb")] that raises names [p] in its error. *)
Lemma open_wb_raises (p : string) (e : PyError) (w w' : World) :
  open_wb p w = (Raise e, w') ->
  e = NotADirectoryError p \/ e = FileNotFoundError p
  \/ e = IsADirectoryError p.
Proof.
  unfold open_wb, parent_error.
  destruct (is_empty (dirname p) || bool_decide (dirname p ∈ dirs w)).
  - destruct (bool_decide (p ∈ dirs w)); [| discriminate].
    intros [= <- _]. auto.
  - destruct (bool_decide (is_Some (files w !! dirname p)));
      intros [= <- _]; auto.
Qed.

(** A save block in front of a [FileNotFoundError] for another path has
    completed. *)
Lemma save_block_before_missing {B : Type} (im : Image) (p q : string)
    (k : M B) (w w' : World) :
  q <> p ->
  bind (open_wb p) (fun f => bind (Image_save im f) (fun _ => k)) w
  = (Raise (FileNotFoundError q), w') ->
  exists bs,
    bmp_encode im = Some bs /\ creatable w p
    /\ k (with_files (<[p := bs]> (<[p := []]> (files w))) w)
       = (Raise (FileNotFoundError q), w').
Proof.
  intros Hne Hrun.
  apply bind_Raise_inv in Hrun as [Hopen | (f & w1 & Hopen & Hrun)].
  { apply open_wb_raises in Hopen as [Heq | [Heq | Heq]];
      try discriminate Heq. injection Heq as Heq. contradiction. }
  apply open_wb_inv in Hopen as (-> & Hdir & ->).
  apply bind_Raise_inv in Hrun as [Hsave | (x & w2 & Hsave & Hrun)].
  { unfold Image_save in Hsave. destruct (bmp_encode im); discriminate Hsave. }
  apply Image_save_inv in Hsave as (bs & Henc & ->).
  exists bs. split; [exact Henc |]. split; [exact Hdir | exact Hrun].
Qed.

(** X5.  [save_mask] is not all-or-nothing.  When it raises
    [FileNotFoundError] for the image path (a path that is not spelled like
    one of the artifacts, so that the error is the image's and not an
    artifact's), the three masks have been stored and [original_image.bmp]
    has been created empty; a [load_mask] from the directory then returns the
    three masks, if the codec reads them back as written. *)
Theorem save_mask_without_source_keeps_the_masks (self : DiffEdit)
    (mask rough blended : Image) (im_path workdir : string) (w w' : World) :
  save_mask self mask rough blended im_path workdir w
  = (Raise (FileNotFoundError im_path), w') ->
  im_path ∉ mask_artifacts workdir ->
  stored w' (join workdir "mask.bmp") mask
  /\ stored w' (join workdir "rough_mask.bmp") rough
  /\ stored w' (join workdir "blended_mask.bmp") blended
  /\ files w' !! join workdir "original_image.bmp" = Some []
  /\ (bmp_roundtrips mask -> bmp_roundtrips rough -> bmp_roundtrips blended ->
      load_mask self workdir w' = (Return (mask, rough, blended), w')).
Proof.
  unfold save_mask, mask_artifacts. intros Hrun Hother.
  assert (Hne : forall name,
            join workdir name ∈ mask_artifacts workdir ->
            im_path <> join workdir name)
    by (intros name Hin ->; exact (Hother Hin)).
  unfold mask_artifacts in Hne.
  apply save_block_before_missing in Hrun as (bs1 & Henc1 & Hdir1 & Hrun);
    [| apply Hne; set_solver].
  apply save_block_before_missing in Hrun as (bs2 & Henc2 & Hdir2 & Hrun);
    [| apply Hne; set_solver].
  apply save_block_before_missing in Hrun as (bs3 & Henc3 & Hdir3 & Hrun);
    [| apply Hne; set_solver].
  apply bind_Raise_inv in Hrun as [Hopen | (f & w4 & Hopen & Hrun)].
  { apply open_wb_raises in Hopen as [Heq | [Heq | Heq]];
      try discriminate Heq. injection Heq as Heq.
    exfalso. apply (Hne "original_image.bmp"); [set_solver | exact Heq]. }
  apply open_wb_inv in Hopen as (-> & Hdir4 & ->).
  apply bind_Raise_inv in Hrun as [Hopen | (im & w5 & _ & Hsave)];
    [| unfold Image_save in Hsave;
       destruct (bmp_encode (resize im working_size)); discriminate Hsave].
  apply Image_open_world in Hopen as ->.
  repeat apply creatable_with_files in Hdir2.
  repeat apply creatable_with_files in Hdir3.
  pose proof (lookup_mask_written workdir bs1 bs2 bs3 [] (files w))
    as (Hl1 & Hl2 & Hl3).
  unfold masks_written in Hl1, Hl2, Hl3.
  match goal with
  | |- stored ?w1 _ _ /\ _ =>
      assert (Hsm : stored w1 (join workdir "mask.bmp") mask)
        by (exists bs1; split; [exact Henc1 | exact Hl1]);
      assert (Hsr : stored w1 (join workdir "rough_mask.bmp") rough)
        by (exists bs2; split; [exact Henc2 | exact Hl2]);
      assert (Hsb : stored w1 (join workdir "blended_mask.bmp") blended)
        by (exists bs3; split; [exact Henc3 | exact Hl3])
  end.
  split; [exact Hsm |]. split; [exact Hsr |]. split; [exact Hsb |].
  split; [simpl; apply lookup_insert_eq |].
  intros Hm Hr Hb.
  apply load_mask_complete; apply stored_holds_image; try assumption.
  - exact (proj2 Hdir1).
  - exact (proj2 Hdir2).
  - exact (proj2 Hdir3).
Qed.

(** X6.  Saving the same set again changes nothing: when the image path is
    not an artifact path, a [save_mask] repeated with the same arguments in
    the world the first one left completes and leaves that world as it
    is. *)
Theorem save_mask_twice_is_save_mask_once (self : DiffEdit)
    (mask rough blended : Image) (im_path workdir : string) (w w' : World) :
  save_mask self mask rough blended im_path workdir w = (Return PyNone, w') ->
  im_path ∉ mask_artifacts workdir ->
  save_mask self mask rough blended im_path workdir w' = (Return PyNone, w').
Proof.
  intros Hsave Hother.
  apply save_mask_completed in Hsave
    as (bs1 & bs2 & bs3 & bs4 & im & Henc1 & Henc2 & Henc3 & Henc4 & Hdirs
        & Himage & ->).
  destruct Himage as [Hdir (bs & Hfile & Hdec)]. simpl in Hdir, Hfile.
  rewrite lookup_outside_artifacts in Hfile by exact Hother.
  unfold mask_artifacts in Hdirs.
  apply Forall_cons in Hdirs as [Hd1 Hdirs].
  apply Forall_cons in Hdirs as [Hd2 Hdirs].
  apply Forall_cons in Hdirs as [Hd3 Hdirs].
  apply Forall_cons in Hdirs as [Hd4 _].
  unfold save_mask.
  rewrite (save_block_returns _ _ _ bs1)
    by (try assumption; repeat apply creatable_with_files; assumption).
  rewrite (save_block_returns _ _ _ bs2)
    by (try assumption; repeat apply creatable_with_files; assumption).
  rewrite (save_block_returns _ _ _ bs3)
    by (try assumption; repeat apply creatable_with_files; assumption).
  unfold bind at 1. unfold open_wb at 1.
  match goal with
  | |- context [parent_error ?w1 (join workdir "original_image.bmp")] =>
      replace (parent_error w1 (join workdir "original_image.bmp"))
        with (@None PyError)
        by (symmetry; repeat apply creatable_with_files; exact Hd4)
  end.
  simpl.
  rewrite bool_decide_eq_false_2 by exact (proj2 Hd4).
  match goal with
  | |- context [bind (Image_open im_path) _ ?w1] =>
      assert (Hopen : Image_open im_path w1 = (Return im, w1))
  end.
  { apply Image_open_holds. split; [exact Hdir |]. exists bs.
    split; [| exact Hdec]. simpl.
    fold (masks_written workdir bs1 bs2 bs3
            (<[join workdir "original_image.bmp" := bs4]>
               (<[join workdir "original_image.bmp" := []]>
                  (masks_written workdir bs1 bs2 bs3 (files w))))).
    rewrite lookup_outside_artifacts by exact Hother.
    rewrite insert_insert_eq, lookup_outside_artifacts by exact Hother.
    exact Hfile. }
  rewrite (bind_Return _ _ _ _ _ Hopen).
  unfold Image_save. rewrite Henc4. unfold write_file, modify, with_files. simpl.
  do 2 f_equal. f_equal.
  destruct (artifacts_distinct workdir) as (H12 & H13 & H14 & H23 & H24 & H34).
  apply map_eq. intros q. unfold masks_written.
  destruct (decide (q = join workdir "original_image.bmp")) as [-> | Hq4];
    [by simplify_map_eq |].
  destruct (decide (q = join workdir "blended_mask.bmp")) as [-> | Hq3];
    [by simplify_map_eq |].
  destruct (decide (q = join workdir "rough_mask.bmp")) as [-> | Hq2];
    [by simplify_map_eq |].
  destruct (decide (q = join workdir "mask.bmp")) as [-> | Hq1];
    by simplify_map_eq.
Qed.

(** ** X7 to X9: what [load_mask] reads *)

(** [load_mask], as one pass over the file store. *)
Lemma load_mask_run (self : DiffEdit) (workdir : string) (w : World) :
  load_mask self workdir w
  = (if path_exists w (join workdir "mask.bmp")
        && path_exists w (join workdir "rough_mask.bmp")
        && path_exists w (join workdir "blended_mask.bmp")
     then
       match fst (Image_open (join workdir "mask.bmp") w) with
       | Raise e => Raise e
       | Return mask =>
           match fst (Image_open (join workdir "rough_mask.bmp") w) with
           | Raise e => Raise e
           | Return rough =>
               match fst (Image_open (join workdir "blended_mask.bmp") w) with
               | Raise e => Raise e
               | Return blended => Return (mask, rough, blended)
               end
           end
       end
     else Raise (ValueError (mask_files_missing workdir)),
     w).
Proof.
  unfold load_mask. unfold bind at 1 2 3. unfold os_path_exists. simpl.
  destruct (path_exists w (join workdir "mask.bmp"));
    destruct (path_exists w (join workdir "rough_mask.bmp"));
    destruct (path_exists w (join workdir "blended_mask.bmp"));
    simpl; try reflexivity.
  unfold bind.
  rewrite (Image_open_run (join workdir "mask.bmp") w).
  destruct (fst (Image_open (join workdir "mask.bmp") w)); [| reflexivity].
  rewrite (Image_open_run (join workdir "rough_mask.bmp") w).
  destruct (fst (Image_open (join workdir "rough_mask.bmp") w)); [| reflexivity].
  rewrite (Image_open_run (join workdir "blended_mask.bmp") w).
  destruct (fst (Image_open (join workdir "blended_mask.bmp") w)); reflexivity.
Qed.

Lemma load_mask_same_files (self : DiffEdit) (workdir : string) (w1 w2 : World) :
  dirs w1 = dirs w2 ->
  files w1 !! join workdir "mask.bmp" = files w2 !! join workdir "mask.bmp" ->
  files w1 !! join workdir "rough_mask.bmp"
  = files w2 !! join workdir "rough_mask.bmp" ->
  files w1 !! join workdir "blended_mask.bmp"
  = files w2 !! join workdir "blended_mask.bmp" ->
  fst (load_mask self workdir w1) = fst (load_mask self workdir w2).
Proof.
  intros Hdirs Hm Hr Hb. rewrite !load_mask_run. simpl.
  rewrite (path_exists_same_file _ _ _ Hm Hdirs),
    (path_exists_same_file _ _ _ Hr Hdirs),
    (path_exists_same_file _ _ _ Hb Hdirs),
    (Image_open_same_file _ _ _ Hm Hdirs),
    (Image_open_same_file _ _ _ Hr Hdirs),
    (Image_open_same_file _ _ _ Hb Hdirs).
  reflexivity.
Qed.

(** X7.  [load_mask] only reads, and it reads three files: however it ends
    the world is what it was, and in two worlds with the same directories and
    the same [mask.bmp], [rough_mask.bmp] and [blended_mask.bmp] in the
    working directory it ends the same way, whatever else differs. *)
Theorem load_mask_only_reads_the_three_masks (self : DiffEdit)
    (workdir : string) (w : World) :
  snd (load_mask self workdir w) = w
  /\ forall w2 : World,
       dirs w2 = dirs w ->
       (forall name,
          name ∈ ["mask.bmp"; "rough_mask.bmp"; "blended_mask.bmp"] ->
          files w2 !! join workdir name = files w !! join workdir name) ->
       fst (load_mask self workdir w2) = fst (load_mask self workdir w).
Proof.
  split; [rewrite load_mask_run; reflexivity |].
  intros w2 Hdirs Hsame.
  apply load_mask_same_files;
    [exact Hdirs | apply Hsame; repeat constructor ..].
Qed.

(** X8.  Existing is not being readable.  When the three mask paths exist
    but [mask.bmp] cannot be opened as an image (it is a directory, or not an
    image), [load_mask] gets past its check and raises the error of opening
    that file, not the [ValueError] about missing mask files; nothing is
    changed. *)
Theorem load_mask_raises_the_open_error (self : DiffEdit) (workdir : string)
    (e : PyError) (w : World) :
  path_exists w (join workdir "mask.bmp") = true ->
  path_exists w (join workdir "rough_mask.bmp") = true ->
  path_exists w (join workdir "blended_mask.bmp") = true ->
  fst (Image_open (join workdir "mask.bmp") w) = Raise e ->
  load_mask self workdir w = (Raise e, w).
Proof.
  intros H1 H2 H3 Hopen. rewrite load_mask_run, H1, H2, H3, Hopen. reflexivity.
Qed.

(** X9.  Saving the inpainted image does not disturb a mask set:
    [load_mask] ends the same way before and after a
    [save_inpainted_image] into the same working directory, whether that
    save completes or not. *)
Theorem load_mask_unaffected_by_inpainted_image (self : DiffEdit)
    (inpainted : Image) (workdir : string) (w : World) :
  fst (load_mask self workdir
         (snd (save_inpainted_image self inpainted workdir w)))
  = fst (load_mask self workdir w).
Proof.
  destruct (save_inpainted_image_writes_within self inpainted workdir w)
    as [Hdirs Hfiles].
  apply load_mask_same_files; [exact Hdirs | | |];
    apply Hfiles; rewrite list_elem_of_singleton; artifact_ne.
Qed.

(** ** X10: a trailing separator on the working directory *)

Lemma endswith_sep_append (workdir : string) :
  endswith_sep (workdir +:+ sep) = true.
Proof.
  induction workdir as [|c rest IH]; [reflexivity |].
  rewrite append_cons. destruct rest as [|c' rest']; [reflexivity |].
  rewrite append_cons in *. exact IH.
Qed.

Lemma join_trailing_sep (workdir name : string) :
  is_empty workdir = false -> endswith_sep workdir = false ->
  startswith name sep = false ->
  join (workdir +:+ sep) name = join workdir name.
Proof.
  intros Hne Hsep Hrel. unfold join. rewrite Hrel, Hne, Hsep.
  rewrite endswith_sep_append, orb_true_r. simpl.
  symmetry. apply append_assoc.
Qed.

(** X10.  A working directory named with or without a trailing separator
    is the same directory to the facade: the artifact paths are the same, so
    the two saves behave identically, and [load_mask] returns from the one
    exactly what it returns from the other. *)
Theorem trailing_separator_is_immaterial (self : DiffEdit) (workdir : string)
    (mask rough blended inpainted : Image) (im_path : string) (w : World) :
  is_empty workdir = false -> endswith_sep workdir = false ->
  mask_artifacts (workdir +:+ "/") = mask_artifacts workdir
  /\ save_mask self mask rough blended im_path (workdir +:+ "/") w
     = save_mask self mask rough blended im_path workdir w
  /\ save_inpainted_image self inpainted (workdir +:+ "/") w
     = save_inpainted_image self inpainted workdir w
  /\ forall (masks : Image * Image * Image) (w' : World),
       load_mask self (workdir +:+ "/") w = (Return masks, w')
       <-> load_mask self workdir w = (Return masks, w').
Proof.
  intros Hne Hsep.
  assert (Hjoin : forall name, startswith name sep = false ->
                    join (workdir +:+ "/") name = join workdir name)
    by (intros name; apply join_trailing_sep; assumption).
  repeat split.
  - unfold mask_artifacts. rewrite !Hjoin by reflexivity. reflexivity.
  - unfold save_mask. rewrite !Hjoin by reflexivity. reflexivity.
  - unfold save_inpainted_image. rewrite !Hjoin by reflexivity. reflexivity.
  - rewrite !load_mask_run, !Hjoin by reflexivity.
    destruct (path_exists w (join workdir "mask.bmp")
              && path_exists w (join workdir "rough_mask.bmp")
              && path_exists w (join workdir "blended_mask.bmp"));
      [tauto | discriminate].
  - rewrite !load_mask_run, !Hjoin by reflexivity.
    destruct (path_exists w (join workdir "mask.bmp")
              && path_exists w (join workdir "rough_mask.bmp")
              && path_exists w (join workdir "blended_mask.bmp"));
      [tauto | discriminate].
Qed.

(** ** X11, X12: devices and embeddings *)

(** X11.  [to] moves the vae, then the text encoder, then the unet, then
    the inpainting pipeline, and stops at the first of them that is [None].
    When it returns, it returns the object as it is, the four were there and
    each has been moved to the device.  When it raises the [AttributeError]
    of [None.to], the components in front of the first [None] have been
    moved and no other: none when the vae is [None], the vae alone when the
    text encoder is, the vae and the text encoder when the unet is, and these
    two and the unet when only the inpainting pipeline is. *)
Theorem to_moves_the_components_in_order (self : DiffEdit) (d : string)
    (r : Outcome DiffEdit) (w w' : World) :
  to self (Some d) w = (r, w') ->
  (forall self', r = Return self' ->
     self' = self
     /\ exists v t u i : PyRef,
         vae self = Some v /\ text_encoder self = Some t
         /\ unet self = Some u /\ inpainting self = Some i
         /\ w' = with_devices
                   (<[i := d]> (<[u := d]> (<[t := d]> (<[v := d]> (devices w)))))
                   w)
  /\ (r = Raise (AttributeError (no_attribute "NoneType" "to")) ->
      match vae self, text_encoder self, unet self with
      | None, _, _ => w' = w
      | Some v, None, _ => w' = with_devices (<[v := d]> (devices w)) w
      | Some v, Some t, None =>
          w' = with_devices (<[t := d]> (<[v := d]> (devices w))) w
      | Some v, Some t, Some u =>
          inpainting self = None
          /\ w' = with_devices
                    (<[u := d]> (<[t := d]> (<[v := d]> (devices w)))) w
      end).
Proof.
  destruct self as [tok te v u i sch dev ip mg inp]. simpl.
  destruct v as [v|], te as [t|], u as [u|], i as [i|];
    intros [= <- <-]; (split; [intros self' Hr | intros Hr]);
    try discriminate Hr; try reflexivity; try (split; reflexivity).
  injection Hr as <-. split; [reflexivity |].
  exists v, t, u, i. repeat split.
Qed.

(** X12.  [_get_embedding_for_prompt] asks the tokenizer first: without
    one it raises [AttributeError] and touches nothing.  With a tokenizer and
    no text encoder it raises [TypeError] from inside [torch.no_grad], and
    autograd is back to its former setting: the world is as it was. *)
Theorem embedding_needs_tokenizer_then_encoder (self : DiffEdit)
    (prompt : string) (w : World) :
  (tokenizer self = None ->
   _get_embedding_for_prompt self prompt w
   = (Raise (AttributeError (no_attribute "NoneType" "model_max_length")), w))
  /\ (is_Some (tokenizer self) -> text_encoder self = None ->
      _get_embedding_for_prompt self prompt w
      = (Raise (TypeError "'NoneType' object is not callable"), w)).
Proof.
  unfold _get_embedding_for_prompt. split.
  - intros ->. reflexivity.
  - intros [tk ->] ->. destruct w; reflexivity.
Qed.


(** ** Methods that write no file *)

Lemma writes_within_unchanged {A : Type} (ps : list string) (c : M A) :
  (forall w, files (snd (c w)) = files w /\ dirs (snd (c w)) = dirs w) ->
  writes_within ps c.
Proof.
  intros Hsame w. destruct (Hsame w) as [Hfiles Hdirs].
  split; [exact Hdirs | intros p _; rewrite Hfiles; reflexivity].
Qed.

Lemma writes_within_mono {A : Type} (ps ps' : list string) (c : M A) :
  (forall p, p ∈ ps -> p ∈ ps') -> writes_within ps c -> writes_within ps' c.
Proof.
  intros Hsub Hc w. destruct (Hc w) as [Hdirs Hfiles].
  split; [exact Hdirs |]. intros p Hp. apply Hfiles. intros Hin.
  exact (Hp (Hsub p Hin)).
Qed.

Lemma stored_frame (ps : list string) (w w' : World) (p : string) (im : Image) :
  frame ps w w' -> p ∉ ps -> stored w p im -> stored w' p im.
Proof.
  intros [_ Hfiles] Hp (bs & Henc & Hfile). exists bs.
  split; [exact Henc | rewrite (Hfiles p Hp); exact Hfile].
Qed.

(** Walks down a method body that writes no file. *)
Ltac reads_step :=
  match goal with
  | |- writes_within _ (bind _ _) => apply writes_within_bind; [| intros ?]
  | |- writes_within _ (if ?b then _ else _) => destruct b
  | |- writes_within _ (let '(_, _) := ?x in _) => destruct x
  | |- writes_within _ (Image_open _) => apply writes_within_Image_open
  | |- writes_within _ (attr ?o _) =>
      destruct o; apply writes_within_unchanged; intros ?; split; reflexivity
  | |- writes_within _ (fun w => attr _ _ w) =>
      apply writes_within_unchanged; intros [? ? ? ? [?|] [?|] ? ?];
      split; reflexivity
  | |- writes_within _ _ =>
      apply writes_within_unchanged; intros ?; split; reflexivity
  end.

Lemma get_mask_writes_within (ps : list string) (self : DiffEdit)
    (im_path p1 p2 : string) (seed n : Z) :
  writes_within ps (get_mask self im_path p1 p2 seed n).
Proof.
  apply writes_within_unchanged. intros w.
  destruct (get_mask_leaves self im_path p1 p2 seed n w) as (Hf & Hd & _).
  split; assumption.
Qed.

Lemma create_mask_writes_within (ps : list string) (self : DiffEdit)
    (im_path p1 p2 : string) (n seed : Z) :
  writes_within ps (create_mask self im_path p1 p2 n seed).
Proof.
  unfold create_mask.
  apply writes_within_bind; [reads_step | intros found].
  destruct (negb found); [reads_step |].
  apply writes_within_bind; [reads_step | intros _].
  apply writes_within_bind; [apply get_mask_writes_within | intros [[? ?] ?]].
  reads_step.
Qed.

Lemma load_mask_writes_within (ps : list string) (self : DiffEdit)
    (workdir : string) :
  writes_within ps (load_mask self workdir).
Proof.
  apply writes_within_unchanged. intros w. rewrite load_mask_run.
  split; reflexivity.
Qed.

Lemma inpaint_mask_with_prompt_writes_within (ps : list string)
    (self : DiffEdit) (im_path : string) (mask : Image) (p2 : string)
    (seed : Z) :
  writes_within ps (inpaint_mask_with_prompt self im_path mask p2 seed).
Proof.
  unfold inpaint_mask_with_prompt, Inpainter_inpaint_mask.
  repeat reads_step.
Qed.

(** ** C5: the demo, step by step *)

(** A demo that returned is its six steps, each one run in the world the
    one before it left. *)
Lemma demo_diffedit_chain (self : DiffEdit)
    (im_path p1 p2 : string) (n seed : Z) (w w' : World) (out : list Image) :
  demo_diffedit self im_path p1 p2 n seed w = (Return out, w')
  <->
  exists (im mask rough blended mask' rough' blended' inpainted : Image)
         (w1 w2 w3 w4 : World),
    path_exists w im_path = true
    /\ Image_open im_path w = (Return im, w)
    /\ create_mask self im_path p1 p2 n seed (logged (obtaining_the_mask n) w)
       = (Return (mask, rough, blended), w1)
    /\ save_mask self mask rough blended im_path "./" w1 = (Return PyNone, w2)
    /\ load_mask self "./" w2 = (Return (mask', rough', blended'), w3)
    /\ inpaint_mask_with_prompt self im_path mask' p2 seed
         (logged "Inpainting the image using the mask." w3)
       = (Return inpainted, w4)
    /\ save_inpainted_image self inpainted "./" w4 = (Return PyNone, w')
    /\ out = [resize im working_size; blended; inpainted].
Proof.
  unfold demo_diffedit. split.
  - intros Hrun.
    apply bind_Return_inv in Hrun as (found & w0 & Hfound & Hrun).
    injection Hfound as <- <-.
    destruct (path_exists w im_path) eqn:Hexists; [| discriminate Hrun].
    simpl in Hrun.
    apply bind_Return_inv in Hrun as (im & w0 & Hopen & Hrun).
    pose proof (Image_open_world _ _ _ _ Hopen) as ->.
    apply bind_Return_inv in Hrun as (x & w0 & Hlog & Hrun).
    rewrite logging_info_run in Hlog. injection Hlog as _ <-.
    apply bind_Return_inv in Hrun as ([[mask rough] blended] & w1 & Hcreate & Hrun).
    apply bind_Return_inv in Hrun as ([] & w2 & Hsave & Hrun).
    apply bind_Return_inv in Hrun as ([[mask' rough'] blended'] & w3 & Hload & Hrun).
    apply bind_Return_inv in Hrun as (y & w0 & Hlog & Hrun).
    rewrite logging_info_run in Hlog. injection Hlog as _ <-.
    apply bind_Return_inv in Hrun as (inpainted & w4 & Hinpaint & Hrun).
    apply bind_Return_inv in Hrun as ([] & w5 & Hsaved & Hrun).
    injection Hrun as <- <-.
    exists im, mask, rough, blended, mask', rough', blended', inpainted,
      w1, w2, w3, w4.
    repeat split; assumption.
  - intros (im & mask & rough & blended & mask' & rough' & blended' & inpainted
            & w1 & w2 & w3 & w4 & Hexists & Hopen & Hcreate & Hsave & Hload
            & Hinpaint & Hsaved & ->).
    unfold bind at 1. unfold os_path_exists. rewrite Hexists. simpl.
    rewrite (bind_Return _ _ _ _ _ Hopen).
    rewrite (bind_Return _ _ _ _ _ (logging_info_run _ _)).
    rewrite (bind_Return _ _ _ _ _ Hcreate).
    rewrite (bind_Return _ _ _ _ _ Hsave).
    rewrite (bind_Return _ _ _ _ _ Hload).
    rewrite (bind_Return _ _ _ _ _ (logging_info_run _ _)).
    rewrite (bind_Return _ _ _ _ _ Hinpaint).
    rewrite (bind_Return _ _ _ _ _ Hsaved).
    reflexivity.
Qed.

(** What a demo that returned has left in the current directory. *)
Lemma demo_diffedit_stored (self : DiffEdit)
    (im_path p1 p2 : string) (n seed : Z) (w w' : World) (out : list Image) :
  demo_diffedit self im_path p1 p2 n seed w = (Return out, w') ->
  exists im mask rough blended inpainted original : Image,
    holds_image w im_path im
    /\ out = [resize im working_size; blended; inpainted]
    /\ stored w' (join "./" "mask.bmp") mask
    /\ stored w' (join "./" "rough_mask.bmp") rough
    /\ stored w' (join "./" "blended_mask.bmp") blended
    /\ stored w' (join "./" "original_image.bmp") original
    /\ im_size original = working_size
    /\ stored w' (join "./" "inpainted_image.bmp") inpainted.
Proof.
  intros Hrun.
  apply demo_diffedit_chain in Hrun
    as (im & mask & rough & blended & mask' & rough' & blended' & inpainted
        & w1 & w2 & w3 & w4 & _ & Hopen & _ & Hsave & Hload & Hinpaint & Hsaved
        & ->).
  apply Image_open_inv in Hopen as [_ Himage].
  apply save_mask_stored in Hsave
    as (_ & _ & Hsm & Hsr & Hsb & original & Hso).
  assert (w3 = w2) as ->
    by (rewrite load_mask_run in Hload; injection Hload as _ <-; reflexivity).
  pose proof (inpaint_mask_with_prompt_writes_within [] self im_path mask' p2
                seed (logged "Inpainting the image using the mask." w2))
    as Hframe4.
  rewrite Hinpaint in Hframe4. simpl in Hframe4.
  pose proof (save_inpainted_image_writes_within self inpainted "./" w4)
    as Hframe5.
  rewrite Hsaved in Hframe5. simpl in Hframe5.
  assert (Hkeep : forall p image,
            p <> join "./" "inpainted_image.bmp" ->
            stored w2 p image -> stored w' p image).
  { intros p image Hp Hstored.
    apply (stored_frame _ _ _ _ _ Hframe5);
      [rewrite list_elem_of_singleton; exact Hp |].
    apply (stored_frame _ _ _ _ _ Hframe4); [apply not_elem_of_nil |].
    exact Hstored. }
  exists im, mask, rough, blended, inpainted, (resize original working_size).
  split; [exact Himage |]. split; [reflexivity |].
  repeat split; try (apply Hkeep; [artifact_ne | assumption]).
  exact (save_inpainted_image_stored _ _ _ _ _ _ Hsaved).
Qed.


(** ** X13, X14: the files of a demo run *)

(** X13.  However [demo_diffedit] ends, no directory has changed and the
    only files that can differ from before are the five artifacts of the
    current directory: [./mask.bmp], [./rough_mask.bmp],
    [./blended_mask.bmp], [./original_image.bmp] and
    [./inpainted_image.bmp]. *)
Theorem demo_diffedit_writes_only_the_artifacts (self : DiffEdit)
    (im_path p1 p2 : string) (n seed : Z) :
  writes_within (join "./" "inpainted_image.bmp" :: mask_artifacts "./")
    (demo_diffedit self im_path p1 p2 n seed).
Proof.
  unfold demo_diffedit.
  apply writes_within_bind; [reads_step | intros found].
  destruct (negb found); [reads_step |].
  apply writes_within_bind; [reads_step | intros im].
  apply writes_within_bind; [reads_step | intros _].
  apply writes_within_bind;
    [apply create_mask_writes_within | intros [[mask rough] blended]].
  apply writes_within_bind;
    [apply (writes_within_mono (mask_artifacts "./"));
       [intros p Hp; right; exact Hp | apply save_mask_writes_within]
    | intros _].
  apply writes_within_bind;
    [apply load_mask_writes_within | intros [[mask' rough'] blended']].
  apply writes_within_bind; [reads_step | intros _].
  apply writes_within_bind;
    [apply inpaint_mask_with_prompt_writes_within | intros inpainted].
  apply writes_within_bind;
    [apply (writes_within_mono [join "./" "inpainted_image.bmp"]);
       [intros p Hp; apply list_elem_of_singleton in Hp as ->; left
       | apply save_inpainted_image_writes_within]
    | intros _].
  reads_step.
Qed.

(** X14.  After a [demo_diffedit] that returned, the current directory
    holds the whole set: the three masks, an original image of the working
    resolution and the inpainted image; the second and third images of the
    list returned are the ones stored as [blended_mask.bmp] and
    [inpainted_image.bmp]. *)
Theorem demo_diffedit_leaves_the_artifacts (self : DiffEdit)
    (im_path p1 p2 : string) (n seed : Z) (w w' : World) (out : list Image) :
  demo_diffedit self im_path p1 p2 n seed w = (Return out, w') ->
  exists im mask rough blended inpainted original : Image,
    out = [im; blended; inpainted]
    /\ stored w' (join "./" "mask.bmp") mask
    /\ stored w' (join "./" "rough_mask.bmp") rough
    /\ stored w' (join "./" "blended_mask.bmp") blended
    /\ stored w' (join "./" "original_image.bmp") original
    /\ im_size original = working_size
    /\ stored w' (join "./" "inpainted_image.bmp") inpainted.
Proof.
  intros Hrun.
  apply demo_diffedit_stored in Hrun
    as (im & mask & rough & blended & inpainted & original & _ & -> & Hsm
        & Hsr & Hsb & Hso & Hsize & Hsi).
  exists (resize im working_size), mask, rough, blended, inpainted, original.
  repeat split; assumption.
Qed.

(** ** X15: what a constructed object is *)

(** X15.  An object that [__init__] returned has a vae, a text encoder, a
    unet and an inpainting pipeline, each living on the device when one was
    given; it carries the tokenizer, scheduler and device it was given; the
    two debug lines were logged around the move and no file was touched.
    On such an object [_get_embedding_for_prompt] cannot fail for want of a
    text encoder: with a tokenizer it returns. *)
Theorem constructed_object_is_moved (tok te v u i sch : option PyRef)
    (dev : option string) (w w' : World) (self : DiffEdit) :
  __init__ tok te v u i sch dev w = (Return self, w') ->
  vae self = v /\ text_encoder self = te /\ unet self = u /\ inpainting self = i
  /\ tokenizer self = tok /\ scheduler self = sch /\ torch_device self = dev
  /\ (exists v' t' u' i', v = Some v' /\ te = Some t' /\ u = Some u' /\ i = Some i'
        /\ forall d, dev = Some d ->
             devices w' !! v' = Some d /\ devices w' !! t' = Some d
             /\ devices w' !! u' = Some d /\ devices w' !! i' = Some d)
  /\ journal w'
     = (journal w ++ [LogDebug ("Setting the device to " +:+ py_str dev);
                      LogDebug ("Device set to " +:+ py_str dev)])%list
  /\ files w' = files w
  /\ (forall prompt w2, is_Some tok ->
        exists embedding w3,
          _get_embedding_for_prompt self prompt w2 = (Return embedding, w3)).
Proof.
  intros Hrun.
  destruct v as [v'|], te as [t'|], u as [u'|], i as [i'|];
    try (destruct dev; discriminate Hrun).
  assert (Hself : self = mkDiffEdit tok (Some t') (Some v') (Some u') (Some i')
                           sch dev
                           (Some (mkImageProcessor (Some v') dev))
                           (Some (mkMaskGenerator (Some u') sch tok (Some t')
                                    (mkImageProcessor (Some v') dev) dev))
                           (Some (mkInpainter (Some i') dev)))
    by (destruct dev; injection Hrun as <- _; reflexivity).
  subst self. simpl.
  repeat (split; [reflexivity |]).
  split; [| split; [| split]].
  - exists v', t', u', i'. repeat (split; [reflexivity |]).
    intros d ->. injection Hrun as <-. simpl.
    repeat split;
      repeat (rewrite lookup_insert; case_decide; [reflexivity |]);
      congruence.
  - destruct dev; injection Hrun as <-; simpl;
      rewrite <- app_assoc; reflexivity.
  - destruct dev; injection Hrun as <-; reflexivity.
  - intros prompt w2 [tk ->]. unfold _get_embedding_for_prompt. simpl.
    destruct w2. eexists. eexists. reflexivity.
Qed.

End Properties.

(** * The properties at work on the small backend *)

#[local] Existing Instance Toy.backend.

Lemma toy_not_a_directory (w : World) (p : string) :
  bool_decide (p ∈ dirs w) = false -> p ∉ dirs w.
Proof. apply bool_decide_eq_false_1. Qed.

Lemma toy_not_listed (p : string) (ps : list string) :
  bool_decide (p ∈ ps) = false -> p ∉ ps.
Proof. apply bool_decide_eq_false_1. Qed.

Lemma toy_photo_in_world : holds_image Toy.world "dog.bmp" Toy.photo.
Proof.
  split; [apply toy_not_a_directory; vm_compute; reflexivity |].
  exists Toy.photo_bytes. split; vm_compute; reflexivity.
Qed.

Lemma toy_roundtrips (im : Image) (bs : list byte) :
  Toy.encode im = Some bs -> Toy.decode bs = Some im -> bmp_roundtrips im.
Proof. intros Henc Hdec. exists bs. split; assumption. Qed.

Lemma toy_photo_in_used_world :
  files Toy.used_world !! "dog.bmp" = files Toy.world !! "dog.bmp"
  /\ dirs Toy.used_world = dirs Toy.world
  /\ rng Toy.used_world <> rng Toy.world.
Proof. repeat split; vm_compute; congruence. Qed.

(** C1 at work: in the toy world the photograph yields the same masks on a
    second call and in a world that has been in use, where the global
    generator is in another state; they are [generated_masks] of the
    photograph. *)
Lemma mask_generation_is_repeatable_witness :
  holds_image Toy.world "dog.bmp" Toy.photo
  /\ fst (create_mask Toy.session "dog.bmp" "dog" "cat" 2 42 Toy.world)
     = Return (generated_masks Toy.processor Toy.generator Toy.photo
                 "dog" "cat" 2 42)
  /\ fst (create_mask Toy.session "dog.bmp" "dog" "cat" 2 42
            (snd (create_mask Toy.session "dog.bmp" "dog" "cat" 2 42 Toy.world)))
     = fst (create_mask Toy.session "dog.bmp" "dog" "cat" 2 42 Toy.world)
  /\ fst (create_mask Toy.session "dog.bmp" "dog" "cat" 2 42 Toy.used_world)
     = fst (create_mask Toy.session "dog.bmp" "dog" "cat" 2 42 Toy.world).
Proof.
  pose proof (mask_generation_is_repeatable Toy.session "dog.bmp" "dog" "cat"
                2 42 Toy.world) as [[Hagain _] [_ [Hworlds [Hfunction _]]]].
  split; [exact toy_photo_in_world |].
  split; [| split; [exact Hagain |]].
  - exact (proj1 (Hfunction Toy.processor Toy.generator Toy.photo
                    toy_photo_in_world eq_refl eq_refl)).
  - exact (proj1 (Hworlds Toy.used_world (proj1 toy_photo_in_used_world)
                    (proj1 (proj2 toy_photo_in_used_world)))).
Defined.

(** C2 at work: there is no [cat.bmp] in the toy world. *)
Lemma create_mask_missing_path_witness :
  path_exists Toy.world "cat.bmp" = false
  /\ create_mask Toy.session "cat.bmp" "dog" "cat" 2 42 Toy.world
     = (Raise (ValueError
                 "Image path cat.bmp does not exist. Check the provided path"),
        Toy.world).
Proof.
  assert (Hmissing : path_exists Toy.world "cat.bmp" = false)
    by (vm_compute; reflexivity).
  split; [exact Hmissing |].
  exact (create_mask_missing_path Toy.session "cat.bmp" "dog" "cat" 2 42
           Toy.world Hmissing).
Defined.

(** C3, the claim as stated fails: [out] holds the three masks and no
    [original_image.bmp], a file of the artifact set is missing, and
    [load_mask] returns the three masks all the same. *)
Lemma load_mask_ignores_the_original_image :
  path_exists Toy.masks_only_world (join "out" "original_image.bmp") = false
  /\ load_mask Toy.session "out" Toy.masks_only_world
     = (Return (Toy.mask_a, Toy.mask_b, Toy.mask_c), Toy.masks_only_world).
Proof. split; vm_compute; reflexivity. Qed.

Lemma toy_masks_in_out :
  holds_image Toy.masks_only_world (join "out" "mask.bmp") Toy.mask_a
  /\ holds_image Toy.masks_only_world (join "out" "rough_mask.bmp") Toy.mask_b
  /\ holds_image Toy.masks_only_world (join "out" "blended_mask.bmp") Toy.mask_c.
Proof.
  repeat split; try (apply toy_not_a_directory; vm_compute; reflexivity);
    eexists; split; vm_compute; reflexivity.
Qed.

(** C3 at work: an empty directory is refused, the three masks are
    returned. *)
Lemma load_mask_checks_the_three_masks_witness :
  path_exists Toy.empty_world (join "out" "mask.bmp") = false
  /\ load_mask Toy.session "out" Toy.empty_world
     = (Raise (ValueError
                 "Mask files not found in out. Run create_mask to generate the mask."),
        Toy.empty_world)
  /\ load_mask Toy.session "out" Toy.masks_only_world
     = (Return (Toy.mask_a, Toy.mask_b, Toy.mask_c), Toy.masks_only_world).
Proof.
  assert (Hmissing : path_exists Toy.empty_world (join "out" "mask.bmp") = false)
    by (vm_compute; reflexivity).
  split; [exact Hmissing |].
  split.
  - exact (proj1 (load_mask_checks_the_three_masks Toy.session "out"
                    Toy.empty_world) (or_introl Hmissing)).
  - destruct toy_masks_in_out as (Hm & Hr & Hb).
    exact (proj2 (load_mask_checks_the_three_masks Toy.session "out"
                    Toy.masks_only_world) _ _ _ Hm Hr Hb).
Defined.

Lemma toy_save_completes :
  save_mask Toy.session Toy.mask_a Toy.mask_b Toy.mask_c "dog.bmp" "out"
    Toy.world
  = (Return PyNone, Toy.saved_world).
Proof. vm_compute. reflexivity. Qed.

Lemma toy_masks_roundtrip :
  bmp_roundtrips Toy.mask_a /\ bmp_roundtrips Toy.mask_b
  /\ bmp_roundtrips Toy.mask_c.
Proof.
  repeat split; eapply toy_roundtrips; vm_compute; reflexivity.
Qed.

(** C4 at work: three masks saved into [out] are the three masks loaded
    from [out]. *)
Lemma save_then_load_returns_the_masks_witness :
  save_mask Toy.session Toy.mask_a Toy.mask_b Toy.mask_c "dog.bmp" "out"
    Toy.world
  = (Return PyNone, Toy.saved_world)
  /\ load_mask Toy.session "out" Toy.saved_world
     = (Return (Toy.mask_a, Toy.mask_b, Toy.mask_c), Toy.saved_world).
Proof.
  split; [exact toy_save_completes |].
  destruct toy_masks_roundtrip as (Hm & Hr & Hb).
  exact (save_then_load_returns_the_masks Toy.session Toy.mask_a Toy.mask_b
           Toy.mask_c "dog.bmp" "out" Toy.world Toy.saved_world
           toy_save_completes Hm Hr Hb).
Defined.

(** C4, the claim as stated fails: not every triple of images comes back.
    A mask of floating-point pixels is one that the BMP writer refuses:
    [save_mask] raises on it, and a [load_mask] from the directory then
    returns no image at all. *)
Lemma save_then_load_loses_an_unwritable_mask :
  save_mask Toy.session Toy.float_mask Toy.mask_b Toy.mask_c "dog.bmp" "out"
    Toy.world
  = (Raise (OSError "cannot write mode F as BMP"), Toy.refused_world)
  /\ load_mask Toy.session "out" Toy.refused_world
     = (Raise (ValueError
                 "Mask files not found in out. Run create_mask to generate the mask."),
        Toy.refused_world).
Proof. split; vm_compute; reflexivity. Qed.

Lemma toy_generated_masks :
  generated_masks Toy.processor Toy.generator Toy.photo "dog" "cat" 2 42
  = (Toy.dog_mask, Toy.dog_mask, Toy.dog_blended).
Proof. vm_compute. reflexivity. Qed.

Lemma toy_demo_completes :
  demo_diffedit Toy.session "dog.bmp" "dog" "cat" 2 42 Toy.world
  = (Return [Toy.resized_photo; Toy.dog_blended; Toy.dog_inpainted],
     Toy.demo_world).
Proof. vm_compute. reflexivity. Qed.


(** C7 at work: nothing has been processed in the toy world, and after
    [get_mask] every processed source image is 2 x 2. *)
Lemma sources_are_resized_before_processing_witness :
  resize_invariant Toy.world
  /\ resize_invariant
       (snd (get_mask Toy.session "dog.bmp" "dog" "cat" 42 2 Toy.world))
  /\ exists im,
       im_size im = (2, 2)
       /\ stored Toy.saved_world (join "out" "original_image.bmp") im.
Proof.
  assert (Hinv : resize_invariant Toy.world) by constructor.
  pose proof (sources_are_resized_before_processing Toy.session "dog.bmp"
                "dog" "cat" "out" 2 42 Toy.mask_a Toy.mask_b Toy.mask_c
                Toy.world Hinv) as (Hget & _ & _ & Hsave).
  split; [exact Hinv |].
  split; [exact Hget |].
  exact (Hsave Toy.saved_world toy_save_completes).
Defined.



(** C9 at work: the toy tokenizer has four positions; "a dog" is cut to
    four ids and "a" is padded to four. *)
Lemma embedding_has_fixed_shape_witness :
  tokenizer Toy.session = Some 1%positive
  /\ text_encoder Toy.session = Some 2%positive
  /\ tokenizer_call 1%positive "a dog" PadMaxLength 4 true = [97; 32; 100; 111]%Z
  /\ tokenizer_call 1%positive "a" PadMaxLength 4 true = [97; 0; 0; 0]%Z
  /\ exists (input_ids : list Z) (row : list Z),
       input_ids = tokenizer_call 1%positive "a dog" PadMaxLength 4 true
       /\ length input_ids = 4
       /\ length row = 4
       /\ _get_embedding_for_prompt Toy.session "a dog" Toy.world
          = (Return [row],
             with_journal
               (journal Toy.world
                  ++ [CallTextEncoder 2%positive input_ids (Some "cpu") false])
               Toy.world).
Proof.
  repeat (split; [reflexivity |]).
  exact (embedding_has_fixed_shape Toy.session 1%positive 2%positive "a dog"
           Toy.world eq_refl eq_refl).
Defined.

(** C10, the claim as stated fails: with the tokenizer and the scheduler
    left at [None] construction completes, and the object fails at its first
    use of the tokenizer. *)
Lemma init_accepts_a_missing_tokenizer :
  fst (__init__ None (Some 2%positive) (Some 3%positive) (Some 4%positive)
         (Some 5%positive) None (Some "cpu") Toy.empty_world)
  = Return Toy.unwired_session
  /\ fst (_get_embedding_for_prompt Toy.unwired_session "a dog" Toy.empty_world)
     = Raise (AttributeError
                "'NoneType' object has no attribute 'model_max_length'").
Proof. split; vm_compute; reflexivity. Qed.

(** C10 at work: no vae, no object; the four moved components, an object
    that keeps its missing tokenizer. *)
Lemma init_requires_the_moved_components_witness :
  fst (__init__ (Some 1%positive) (Some 2%positive) None (Some 4%positive)
         (Some 5%positive) (Some 6%positive) (Some "cpu") Toy.empty_world)
  = Raise (AttributeError "'NoneType' object has no attribute 'to'")
  /\ exists self,
       fst (__init__ None (Some 2%positive) (Some 3%positive) (Some 4%positive)
              (Some 5%positive) None (Some "cpu") Toy.empty_world)
       = Return self
       /\ tokenizer self = None /\ scheduler self = None
       /\ torch_device self = Some "cpu".
Proof.
  split.
  - exact (proj1 (init_requires_the_moved_components (Some 1%positive)
                    (Some 2%positive) None (Some 4%positive) (Some 5%positive)
                    (Some 6%positive) (Some "cpu") Toy.empty_world)
             (or_introl eq_refl)).
  - exact (proj2 (init_requires_the_moved_components None (Some 2%positive)
                    (Some 3%positive) (Some 4%positive) (Some 5%positive) None
                    (Some "cpu") Toy.empty_world)
             (ex_intro _ _ eq_refl) (ex_intro _ _ eq_refl)
             (ex_intro _ _ eq_refl) (ex_intro _ _ eq_refl)).
Defined.

(** * The further properties at work on the small backend *)

(** X1 at work: no [cat.bmp], no inpainting and no demo. *)
Lemma missing_path_stops_inpainting_and_demo_witness :
  path_exists Toy.world "cat.bmp" = false
  /\ inpaint_mask_with_prompt Toy.session "cat.bmp" Toy.mask_a "cat" 42 Toy.world
     = (Raise (ValueError
                 "Image path cat.bmp does not exist. Check the provided path"),
        Toy.world)
  /\ demo_diffedit Toy.session "cat.bmp" "dog" "cat" 2 42 Toy.world
     = (Raise (ValueError
                 "Image path cat.bmp does not exist. Check the provided path"),
        Toy.world).
Proof.
  assert (Hmissing : path_exists Toy.world "cat.bmp" = false)
    by (vm_compute; reflexivity).
  split; [exact Hmissing |].
  exact (missing_path_stops_inpainting_and_demo Toy.session "cat.bmp" "dog"
           "cat" Toy.mask_a 2 42 Toy.world Hmissing).
Defined.

(** X2 at work: the current directory exists and is no image. *)
Lemma unreadable_path_raises_the_open_error_witness :
  path_exists Toy.world "." = true
  /\ create_mask Toy.session "." "dog" "cat" 2 42 Toy.world
     = (Raise (IsADirectoryError "."),
        logged "Obtaining the mask by running the diffusion process 2 times."
          Toy.world)
  /\ demo_diffedit Toy.session "." "dog" "cat" 2 42 Toy.world
     = (Raise (IsADirectoryError "."), Toy.world).
Proof.
  assert (Hexists : path_exists Toy.world "." = true)
    by (vm_compute; reflexivity).
  assert (Hopen : fst (Image_open "." Toy.world) = Raise (IsADirectoryError "."))
    by (vm_compute; reflexivity).
  pose proof (unreadable_path_raises_the_open_error Toy.session "." "dog" "cat"
                Toy.mask_a 2 42 (IsADirectoryError ".") Toy.world Hexists Hopen)
    as (Hcreate & _ & Hdemo).
  split; [exact Hexists |]. split; [exact Hcreate | exact Hdemo].
Defined.

Lemma toy_photo_is_no_artifact : "dog.bmp" ∉ mask_artifacts "out".
Proof. apply toy_not_listed. vm_compute. reflexivity. Qed.

(** X3 at work: the save into [out] has left the photograph as it was, and
    [out/original_image.bmp] is the resized photograph. *)
Lemma save_mask_stores_the_resized_source_witness :
  holds_image Toy.world "dog.bmp" Toy.photo
  /\ files Toy.saved_world !! "dog.bmp" = files Toy.world !! "dog.bmp"
  /\ stored Toy.saved_world (join "out" "original_image.bmp")
       (resize Toy.photo working_size).
Proof.
  assert (Hsame : files Toy.saved_world !! "dog.bmp"
                  = files Toy.world !! "dog.bmp")
    by (vm_compute; reflexivity).
  split; [exact toy_photo_in_world |]. split; [exact Hsame |].
  exact (save_mask_stores_the_resized_source Toy.session Toy.mask_a Toy.mask_b
           Toy.mask_c Toy.photo "dog.bmp" "out" Toy.world Toy.saved_world
           toy_save_completes toy_photo_in_world Hsame eq_refl).
Defined.

Lemma toy_overwriting_save_completes :
  save_mask Toy.session Toy.mask_a Toy.mask_b Toy.mask_c (join "out" "mask.bmp")
    "out" Toy.empty_world
  = (Return PyNone, Toy.overwritten_world).
Proof. vm_compute. reflexivity. Qed.

(** X4 at work: with [out/mask.bmp] named as the image, the original stored
    is the resized mask. *)
Lemma save_mask_over_its_source_stores_the_mask_witness :
  stored Toy.overwritten_world (join "out" "original_image.bmp")
    (resize Toy.mask_a working_size).
Proof.
  exact (save_mask_over_its_source_stores_the_mask Toy.session Toy.mask_a
           Toy.mask_b Toy.mask_c "out" Toy.empty_world Toy.overwritten_world
           toy_overwriting_save_completes (proj1 toy_masks_roundtrip)).
Defined.

Lemma toy_save_without_source :
  save_mask Toy.session Toy.mask_a Toy.mask_b Toy.mask_c "cat.bmp" "out"
    Toy.empty_world
  = (Raise (FileNotFoundError "cat.bmp"), Toy.unfinished_world).
Proof. vm_compute. reflexivity. Qed.

(** X5 at work: without [cat.bmp] the save into [out] fails, and the masks
    are there to be loaded. *)
Lemma save_mask_without_source_keeps_the_masks_witness :
  save_mask Toy.session Toy.mask_a Toy.mask_b Toy.mask_c "cat.bmp" "out"
    Toy.empty_world
  = (Raise (FileNotFoundError "cat.bmp"), Toy.unfinished_world)
  /\ stored Toy.unfinished_world (join "out" "mask.bmp") Toy.mask_a
  /\ files Toy.unfinished_world !! join "out" "original_image.bmp" = Some []
  /\ load_mask Toy.session "out" Toy.unfinished_world
     = (Return (Toy.mask_a, Toy.mask_b, Toy.mask_c), Toy.unfinished_world).
Proof.
  assert (Hother : "cat.bmp" ∉ mask_artifacts "out")
    by (apply toy_not_listed; vm_compute; reflexivity).
  destruct toy_masks_roundtrip as (Hm & Hr & Hb).
  destruct (save_mask_without_source_keeps_the_masks Toy.session Toy.mask_a
              Toy.mask_b Toy.mask_c "cat.bmp" "out" Toy.empty_world
              Toy.unfinished_world toy_save_without_source Hother)
    as (Hmask & _ & _ & Hempty & Hload).
  split; [exact toy_save_without_source |].
  split; [exact Hmask |]. split; [exact Hempty | exact (Hload Hm Hr Hb)].
Defined.

(** X6 at work: saving into [out] once more changes nothing. *)
Lemma save_mask_twice_is_save_mask_once_witness :
  save_mask Toy.session Toy.mask_a Toy.mask_b Toy.mask_c "dog.bmp" "out"
    Toy.saved_world
  = (Return PyNone, Toy.saved_world).
Proof.
  exact (save_mask_twice_is_save_mask_once Toy.session Toy.mask_a Toy.mask_b
           Toy.mask_c "dog.bmp" "out" Toy.world Toy.saved_world
           toy_save_completes toy_photo_is_no_artifact).
Defined.

Lemma toy_noted_masks (name : string) :
  name ∈ ["mask.bmp"; "rough_mask.bmp"; "blended_mask.bmp"] ->
  files Toy.noted_world !! join "out" name
  = files Toy.masks_only_world !! join "out" name.
Proof.
  intros Hname.
  apply elem_of_cons in Hname as [-> | Hname]; [vm_compute; reflexivity |].
  apply elem_of_cons in Hname as [-> | Hname]; [vm_compute; reflexivity |].
  apply elem_of_cons in Hname as [-> | Hname]; [vm_compute; reflexivity |].
  apply elem_of_nil in Hname. destruct Hname.
Qed.

(** X7 at work: one more file, another journal and autograd off make no
    difference to what is loaded from [out]. *)
Lemma load_mask_only_reads_the_three_masks_witness :
  snd (load_mask Toy.session "out" Toy.noted_world) = Toy.noted_world
  /\ fst (load_mask Toy.session "out" Toy.noted_world)
     = fst (load_mask Toy.session "out" Toy.masks_only_world).
Proof.
  split.
  - exact (proj1 (load_mask_only_reads_the_three_masks Toy.session "out"
                    Toy.noted_world)).
  - exact (proj2 (load_mask_only_reads_the_three_masks Toy.session "out"
                    Toy.masks_only_world) Toy.noted_world eq_refl
             toy_noted_masks).
Defined.

(** X8 at work: [out/mask.bmp] is a directory. *)
Lemma load_mask_raises_the_open_error_witness :
  path_exists Toy.blocked_world (join "out" "mask.bmp") = true
  /\ load_mask Toy.session "out" Toy.blocked_world
     = (Raise (IsADirectoryError "out/mask.bmp"), Toy.blocked_world).
Proof.
  assert (H1 : path_exists Toy.blocked_world (join "out" "mask.bmp") = true)
    by (vm_compute; reflexivity).
  split; [exact H1 |].
  apply (load_mask_raises_the_open_error Toy.session "out"
           (IsADirectoryError "out/mask.bmp") Toy.blocked_world H1);
    vm_compute; reflexivity.
Defined.

(** X10 at work: [out/] is [out]. *)
Lemma trailing_separator_is_immaterial_witness :
  mask_artifacts "out/" = mask_artifacts "out"
  /\ save_mask Toy.session Toy.mask_a Toy.mask_b Toy.mask_c "dog.bmp" "out/"
       Toy.world
     = (Return PyNone, Toy.saved_world).
Proof.
  pose proof (trailing_separator_is_immaterial Toy.session "out" Toy.mask_a
                Toy.mask_b Toy.mask_c Toy.dog_inpainted "dog.bmp" Toy.world
                eq_refl eq_refl) as (Hpaths & Hsave & _).
  split; [exact Hpaths |].
  exact (eq_trans Hsave toy_save_completes).
Defined.

(** X11 at work: the four modules of the session end up on the gpu; with no
    inpainting pipeline the move fails with the vae, the text encoder and
    the unet on the gpu. *)
Lemma to_moves_the_components_in_order_witness :
  to Toy.session (Some "cuda") Toy.empty_world
  = (Return Toy.session,
     with_devices
       (<[5%positive := "cuda"]>
          (<[4%positive := "cuda"]>
             (<[2%positive := "cuda"]>
                (<[3%positive := "cuda"]> (devices Toy.empty_world)))))
       Toy.empty_world)
  /\ to Toy.session_without_inpainting (Some "cuda") Toy.empty_world
     = (Raise (AttributeError "'NoneType' object has no attribute 'to'"),
        with_devices
          (<[4%positive := "cuda"]>
             (<[2%positive := "cuda"]>
                (<[3%positive := "cuda"]> (devices Toy.empty_world))))
          Toy.empty_world).
Proof.
  split.
  - destruct (to Toy.session (Some "cuda") Toy.empty_world) as [r w'] eqn:Hrun.
    pose proof (to_moves_the_components_in_order Toy.session "cuda" r
                  Toy.empty_world w' Hrun) as [Hreturn _].
    assert (Hr : r = Return Toy.session)
      by (injection Hrun as <- _; reflexivity).
    destruct (Hreturn Toy.session Hr)
      as (_ & v & t & u & i & Hv & Ht & Hu & Hi & ->).
    injection Hv as <-. injection Ht as <-. injection Hu as <-.
    injection Hi as <-. rewrite Hr. reflexivity.
  - destruct (to Toy.session_without_inpainting (Some "cuda") Toy.empty_world)
      as [r w'] eqn:Hrun.
    pose proof (to_moves_the_components_in_order
                  Toy.session_without_inpainting "cuda" r Toy.empty_world w'
                  Hrun) as [_ Hraise].
    assert (Hr : r = Raise (AttributeError
                              "'NoneType' object has no attribute 'to'"))
      by (injection Hrun as <- _; reflexivity).
    destruct (Hraise Hr) as [_ ->]. rewrite Hr. reflexivity.
Defined.

(** X12 at work: the session built without a tokenizer. *)
Lemma embedding_needs_tokenizer_then_encoder_witness :
  _get_embedding_for_prompt Toy.unwired_session "a dog" Toy.world
  = (Raise (AttributeError
              "'NoneType' object has no attribute 'model_max_length'"),
     Toy.world).
Proof.
  exact (proj1 (embedding_needs_tokenizer_then_encoder Toy.unwired_session
                  "a dog" Toy.world) eq_refl).
Defined.

(** X13 at work: the demo leaves the photograph as it was. *)
Lemma demo_diffedit_writes_only_the_artifacts_witness :
  ("dog.bmp" ∉ join "./" "inpainted_image.bmp" :: mask_artifacts "./")
  /\ files Toy.demo_world !! "dog.bmp" = files Toy.world !! "dog.bmp".
Proof.
  assert (Hother : "dog.bmp"
                   ∉ join "./" "inpainted_image.bmp" :: mask_artifacts "./")
    by (apply toy_not_listed; vm_compute; reflexivity).
  split; [exact Hother |].
  exact (proj2 (demo_diffedit_writes_only_the_artifacts Toy.session "dog.bmp"
                  "dog" "cat" 2 42 Toy.world) "dog.bmp" Hother).
Defined.

(** X14 at work: after the demo the current directory holds the set. *)
Lemma demo_diffedit_leaves_the_artifacts_witness :
  exists im mask rough blended inpainted original : Image,
    [Toy.resized_photo; Toy.dog_blended; Toy.dog_inpainted]
    = [im; blended; inpainted]
    /\ stored Toy.demo_world (join "./" "mask.bmp") mask
    /\ stored Toy.demo_world (join "./" "rough_mask.bmp") rough
    /\ stored Toy.demo_world (join "./" "blended_mask.bmp") blended
    /\ stored Toy.demo_world (join "./" "original_image.bmp") original
    /\ im_size original = working_size
    /\ stored Toy.demo_world (join "./" "inpainted_image.bmp") inpainted.
Proof.
  exact (demo_diffedit_leaves_the_artifacts Toy.session "dog.bmp" "dog" "cat"
           2 42 Toy.world Toy.demo_world _ toy_demo_completes).
Defined.

Lemma toy_construction_completes :
  __init__ (Some 1%positive) (Some 2%positive) (Some 3%positive)
    (Some 4%positive) (Some 5%positive) (Some 6%positive) (Some "cpu")
    Toy.empty_world
  = (Return Toy.session, Toy.wired_world).
Proof. vm_compute. reflexivity. Qed.

(** X15 at work: the constructed session has its vae on the cpu and two
    lines in the journal. *)
Lemma constructed_object_is_moved_witness :
  devices Toy.wired_world !! 3%positive = Some "cpu"
  /\ journal Toy.wired_world
     = [LogDebug "Setting the device to cpu"; LogDebug "Device set to cpu"]
  /\ exists embedding w3,
       _get_embedding_for_prompt Toy.session "a dog" Toy.world
       = (Return embedding, w3).
Proof.
  pose proof (constructed_object_is_moved _ _ _ _ _ _ _ _ _ _
                toy_construction_completes)
    as (_ & _ & _ & _ & _ & _ & _ & Hmoved & Hjournal & _ & Hembedding).
  destruct Hmoved as (v' & t' & u' & i' & Hv & _ & _ & _ & Hdevices).
  injection Hv as <-.
  split; [exact (proj1 (Hdevices "cpu" eq_refl)) |].
  split; [exact Hjournal |].
  exact (Hembedding "a dog" Toy.world (ex_intro _ _ eq_refl)).
Defined.
